(** * CUPiD: the run driver [cupid/run.py]

    A shallow embedding of [run], the command that reads a control
    structure, selects the notebooks and scripts to compute, filters them
    by the availability of their kernels, registers them as tasks of one
    ploomber DAG and builds that DAG.

    Python dictionaries keep insertion order, so they are association
    lists here.  Exceptions, warnings, calls to external services and the
    objects the function mutates are threaded through a state-and-exception
    monad whose state survives a raised exception. *)

From Stdlib Require Import String Ascii List Bool Arith ZArith Lia Permutation.
Import ListNotations.
Local Open Scope string_scope.
Local Open Scope list_scope.

Set Implicit Arguments.

(** ** Python dictionaries with string keys *)

Module Dict.
Section Ops.
Variable V : Type.

Definition t := list (string * V).

(** [d.get(k)]: [None] when the key is absent. *)
Fixpoint get (k : string) (d : t) : option V :=
  match d with
  | [] => None
  | (k', v) :: d' => if String.eqb k k' then Some v else get k d'
  end.

(** [k in d] *)
Definition contains (k : string) (d : t) : bool :=
  match get k d with Some _ => true | None => false end.

(** [d[k] = v]: an existing key keeps its position, a new key goes last. *)
Fixpoint setitem (k : string) (v : V) (d : t) : t :=
  match d with
  | [] => [(k, v)]
  | (k', v') :: d' =>
      if String.eqb k k' then (k', v) :: d' else (k', v') :: setitem k v d'
  end.

(** [d.pop(k)] on a key that is present. *)
Fixpoint pop (k : string) (d : t) : t :=
  match d with
  | [] => []
  | (k', v') :: d' => if String.eqb k k' then d' else (k', v') :: pop k d'
  end.

Definition items (d : t) : list (string * V) := d.
Definition keys (d : t) : list string := map fst d.
Definition values (d : t) : list V := map snd d.
(** [d.copy()] is a shallow copy: a value equal to [d] that later
    mutations of [d] do not reach. *)
Definition copy (d : t) : t := d.
End Ops.
End Dict.

Abbreviation dict := Dict.t.

(** ** Data model *)

(** Values of the free-form mappings of the configuration file. *)
Inductive pyval : Type :=
| PyNone
| PyBool (b : bool)
| PyInt (z : Z)
| PyStr (s : string)
| PyOther (repr : string).   (* any other value, by its repr *)

(** [dependency] is a task name or a list of task names. *)
Inductive dependency : Type :=
| Dep_name (s : string)
| Dep_list (l : list string).

(** The metadata of one notebook or script.  [None] is an absent key. *)
Record info : Type := {
  kernel_name : option string;
  info_dependency : option dependency;
  parameters : dict pyval
}.

Record data_sources : Type := {
  run_dir : option string;
  sname : option string;
  nb_path_root : option string;
  path_to_cat_json : option string;
  subset : option (dict pyval)
}.

(** The control structure returned by [cupid.util.get_control_dict]. *)
Record control : Type := {
  ctl_data_sources : option data_sources;
  global_params : option (dict pyval);
  env_check : option (dict bool);
  compute_notebooks : option (dict (dict info));
  compute_scripts : option (dict (dict info))
}.

(** The options of the command line. *)
Record flags : Type := {
  serial : bool;
  time_series : bool;
  all : bool;
  atmosphere : bool;
  ocean : bool;
  land : bool;
  seaice : bool;
  landice : bool
}.

Inductive exn : Type :=
| NotImplementedError (msg : string)
| KeyError (key : string)
| UnboundLocalError (var : string)
| ConfigError (msg : string)
| UnresolvedDependencyError (task dep : string)
| CyclicDependencyError.

(** ** The task graph *)

Inductive executor : Type := Serial | Parallel.

Inductive task_kind : Type := Notebook | Script.

(** The name [global_params] is bound either to the dictionary made by
    [dict()] or to the very object [control['global_params']]. *)
Inductive params_ref : Type := Ref_fresh | Ref_control.

(** A task holds the arguments [run] passes to
    [create_ploomber_nb_task] / [create_ploomber_script_task]. *)
Record task : Type := {
  task_name : string;
  task_kind_of : task_kind;
  task_info : info;
  task_cat_path : option string;
  task_nb_path_root : string;
  task_output_dir : option string;
  task_global_params : params_ref;
  task_dependency : option dependency
}.

Record DAG : Type := {
  dag_executor : executor;
  dag_tasks : list task
}.

(** ** The world [run] acts on *)

Inductive call : Type :=
| Call_get_control_dict (config_path : string)
| Call_setup_book (config_path : string)
| Call_open_esm_datastore (path : string)
| Call_search (kwargs : dict pyval)
| Call_serialize (directory name catalog_type : string).

Record world : Type := {
  tracebacklimit : option nat;        (* sys.tracebacklimit, None = unset *)
  calls : list call;                  (* external calls, oldest first *)
  warnings : list string;             (* warnings.warn, oldest first *)
  obj_control : option control;       (* the object bound to [control] *)
  obj_fresh_params : dict pyval;      (* the object made by [dict()] *)
  obj_dag : option DAG;               (* the object bound to [dag] *)
  executed : list (list string)       (* batches dispatched by the executor *)
}.

Definition initial_world : world :=
  {| tracebacklimit := None; calls := []; warnings := [];
     obj_control := None; obj_fresh_params := []; obj_dag := None;
     executed := [] |}.

Definition with_tracebacklimit (n : nat) (w : world) : world :=
  {| tracebacklimit := Some n; calls := calls w; warnings := warnings w;
     obj_control := obj_control w; obj_fresh_params := obj_fresh_params w;
     obj_dag := obj_dag w; executed := executed w |}.

Definition with_call (c : call) (w : world) : world :=
  {| tracebacklimit := tracebacklimit w; calls := calls w ++ [c];
     warnings := warnings w;
     obj_control := obj_control w; obj_fresh_params := obj_fresh_params w;
     obj_dag := obj_dag w; executed := executed w |}.

Definition with_warnings (ws : list string) (w : world) : world :=
  {| tracebacklimit := tracebacklimit w; calls := calls w;
     warnings := warnings w ++ ws;
     obj_control := obj_control w; obj_fresh_params := obj_fresh_params w;
     obj_dag := obj_dag w; executed := executed w |}.

Definition with_control (c : control) (w : world) : world :=
  {| tracebacklimit := tracebacklimit w; calls := calls w;
     warnings := warnings w;
     obj_control := Some c; obj_fresh_params := obj_fresh_params w;
     obj_dag := obj_dag w; executed := executed w |}.

Definition with_fresh_params (g : dict pyval) (w : world) : world :=
  {| tracebacklimit := tracebacklimit w; calls := calls w;
     warnings := warnings w;
     obj_control := obj_control w; obj_fresh_params := g;
     obj_dag := obj_dag w; executed := executed w |}.

Definition with_dag (g : DAG) (w : world) : world :=
  {| tracebacklimit := tracebacklimit w; calls := calls w;
     warnings := warnings w;
     obj_control := obj_control w; obj_fresh_params := obj_fresh_params w;
     obj_dag := Some g; executed := executed w |}.

Definition with_executed (bs : list (list string)) (w : world) : world :=
  {| tracebacklimit := tracebacklimit w; calls := calls w;
     warnings := warnings w;
     obj_control := obj_control w; obj_fresh_params := obj_fresh_params w;
     obj_dag := obj_dag w; executed := executed w ++ bs |}.

Definition with_global_params (g : dict pyval) (c : control) : control :=
  {| ctl_data_sources := ctl_data_sources c; global_params := Some g;
     env_check := env_check c; compute_notebooks := compute_notebooks c;
     compute_scripts := compute_scripts c |}.

(** ** State and exceptions *)

Definition M (A : Type) : Type := world -> world * (exn + A).

Definition ret {A} (a : A) : M A := fun w => (w, inr a).

Definition raise {A} (e : exn) : M A := fun w => (w, inl e).

Definition bind {A B} (m : M A) (k : A -> M B) : M B :=
  fun w =>
    match m w with
    | (w', inr a) => k a w'
    | (w', inl e) => (w', inl e)
    end.

Declare Scope py_scope.
Delimit Scope py_scope with py.
Notation "x <- c ;; k" := (bind c (fun x => k))
  (at level 61, c at next level, right associativity) : py_scope.
Notation "c ;; k" := (bind c (fun _ => k))
  (at level 61, right associativity) : py_scope.
Local Open Scope py_scope.

(** [for x in xs: body(x)] *)
Fixpoint for_each {X} (xs : list X) (body : X -> M unit) : M unit :=
  match xs with
  | [] => ret tt
  | x :: xs' => body x ;; for_each xs' body
  end.

(** [d[key]] where [o] is the looked-up entry: [KeyError] when absent. *)
Definition subscript {A} (key : string) (o : option A) : M A :=
  match o with
  | Some a => ret a
  | None => raise (KeyError key)
  end.

Definition modify (f : world -> world) : M unit := fun w => (f w, inr tt).

Definition external (c : call) : M unit := modify (with_call c).

Definition read_control : M control :=
  fun w =>
    match obj_control w with
    | Some c => (w, inr c)
    | None => (w, inl (UnboundLocalError "control"))
    end.

Definition read_dag : M DAG :=
  fun w =>
    match obj_dag w with
    | Some g => (w, inr g)
    | None => (w, inl (UnboundLocalError "dag"))
    end.

(** [global_params[k] = v], through whichever object the name is bound to. *)
Definition store_param (r : params_ref) (k : string) (v : pyval) : M unit :=
  fun w =>
    match r with
    | Ref_fresh =>
        (with_fresh_params (Dict.setitem k v (obj_fresh_params w)) w, inr tt)
    | Ref_control =>
        match obj_control w with
        | None => (w, inl (UnboundLocalError "control"))
        | Some c =>
            match global_params c with
            | None => (w, inl (KeyError "global_params"))
            | Some g =>
                (with_control (with_global_params (Dict.setitem k v g) c) w,
                 inr tt)
            end
        end
    end.

(** The dictionary a [params_ref] points to, as a task would read it. *)
Definition deref (r : params_ref) (w : world) : option (dict pyval) :=
  match r with
  | Ref_fresh => Some (obj_fresh_params w)
  | Ref_control =>
      match obj_control w with
      | Some c => global_params c
      | None => None
      end
  end.

(** A computation that only emits warnings and then returns or raises. *)
Definition outcome (A : Type) : Type := (list string * (exn + A))%type.

Definition emit {A} (o : outcome A) : M A :=
  fun w => (with_warnings (fst o) w, snd o).

(** ** Strings *)

(** [s.split(c)] for a one-character separator. *)
Fixpoint split (c : ascii) (s : string) : list string :=
  match s with
  | EmptyString => [EmptyString]
  | String a s' =>
      if Ascii.eqb a c then EmptyString :: split c s'
      else match split c s' with
           | [] => [String a EmptyString]
           | piece :: pieces => String a piece :: pieces
           end
  end.

(** ** Selecting the notebooks and scripts to run *)

(** [component_options], in the order the dictionary literal lists them. *)
Definition component_options (fl : flags) : dict bool :=
  [ ("atmosphere", atmosphere fl);
    ("ocean", ocean fl);
    ("land", land fl);
    ("seaice", seaice fl);
    ("landice", landice fl) ].

(** [True not in [atmosphere, ocean, land, seaice, landice]] *)
Definition no_component (fl : flags) : bool :=
  negb (existsb (Bool.eqb true)
          [atmosphere fl; ocean fl; land fl; seaice fl; landice fl]).

(** [for nb, info in category.items(): all_nbs[nb] = info] *)
Definition update_from (category : dict info) (all_nbs : dict info)
  : dict info :=
  fold_left (fun acc item => Dict.setitem (fst item) (snd item) acc)
            (Dict.items category) all_nbs.

(** [for nb_category in section.values(): ...] *)
Definition update_from_all (categories : list (dict info))
  (all_nbs : dict info) : dict info :=
  fold_left (fun acc category => update_from category acc) categories all_nbs.

Definition missing_component_warning (what comp_name : string) : string :=
  "No " ++ what ++ " for " ++ comp_name
        ++ " component specified in config file.".

(** [for comp_name, comp_bool in component_options.items(): ...] of the
    [else] branch; [what] is "notebooks" or "scripts". *)
Fixpoint select_components (what : string) (section : dict (dict info))
  (options : list (string * bool)) (all_nbs : dict info)
  : list string * dict info :=
  match options with
  | [] => ([], all_nbs)
  | (comp_name, comp_bool) :: rest =>
      if comp_bool then
        match Dict.get comp_name section with
        | Some category =>
            select_components what section rest (update_from category all_nbs)
        | None =>
            let (ws, r) := select_components what section rest all_nbs in
            (missing_component_warning what comp_name :: ws, r)
        end
      else select_components what section rest all_nbs
  end.

(** Lines 104-126: the notebooks selected, with the value of [all] after
    the block. *)
Definition select_notebooks (section : dict (dict info)) (fl : flags)
  (all0 : bool) : outcome (bool * dict info) :=
  match Dict.get "infrastructure" section with
  | None => ([], inl (KeyError "infrastructure"))
  | Some infrastructure =>
      let all_nbs := update_from infrastructure [] in
      let all1 := if no_component fl then true else all0 in
      if all1 then
        ([], inr (all1, update_from_all (Dict.values section) all_nbs))
      else
        let (ws, r) :=
          select_components "notebooks" section
                            (Dict.items (component_options fl)) all_nbs in
        (ws, inr (all1, r))
  end.

(** Lines 153-172: the scripts selected. *)
Definition select_scripts (section : dict (dict info)) (fl : flags)
  (all0 : bool) : outcome (bool * dict info) :=
  let all_scripts := [] in
  let all1 := if no_component fl then true else all0 in
  if all1 then
    ([], inr (all1, update_from_all (Dict.values section) all_scripts))
  else
    let (ws, r) :=
      select_components "scripts" section
                        (Dict.items (component_options fl)) all_scripts in
    (ws, inr (all1, r)).

Definition nb_environment_warning (bad_env nb : string) : string :=
  "Environment " ++ bad_env ++ " specified for " ++ nb
    ++ ".ipynb could not be found; " ++ nb
    ++ ".ipynb will not be run. See README.md for environment installation instructions.".

Definition script_environment_warning (bad_env script : string) : string :=
  "Environment " ++ bad_env ++ " specified for " ++ script
    ++ ".py could not be found; " ++ script ++ ".py will not be run.".

(** [for nb, info in all_nbs.copy().items():
       if not control["env_check"][info["kernel_name"]]: warn; all_nbs.pop(nb)]
    [snapshot] is what is left of the copy's items. *)
Fixpoint check_environments (message : string -> string -> string)
  (env : option (dict bool)) (snapshot : list (string * info))
  (all_nbs : dict info) : outcome (dict info) :=
  match snapshot with
  | [] => ([], inr all_nbs)
  | (nb, i) :: rest =>
      match env with
      | None => ([], inl (KeyError "env_check"))
      | Some available =>
          match kernel_name i with
          | None => ([], inl (KeyError "kernel_name"))
          | Some kernel =>
              match Dict.get kernel available with
              | None => ([], inl (KeyError kernel))
              | Some true => check_environments message env rest all_nbs
              | Some false =>
                  let (ws, r) :=
                    check_environments message env rest (Dict.pop nb all_nbs) in
                  (message kernel nb :: ws, r)
              end
          end
      end
  end.

(** The notebook universe, lines 104-134; [env] is [control["env_check"]]
    when the key is there. *)
Definition notebook_universe (env : option (dict bool))
  (section : dict (dict info)) (fl : flags) (all0 : bool)
  : outcome (bool * dict info) :=
  match select_notebooks section fl all0 with
  | (ws, inl e) => (ws, inl e)
  | (ws, inr (all1, all_nbs)) =>
      match check_environments nb_environment_warning env
                               (Dict.items (Dict.copy all_nbs)) all_nbs with
      | (ws', inl e) => (ws ++ ws', inl e)
      | (ws', inr kept) => (ws ++ ws', inr (all1, kept))
      end
  end.

(** The script universe: lines 153-180. *)
Definition script_universe (env : option (dict bool))
  (section : dict (dict info)) (fl : flags) (all0 : bool)
  : outcome (bool * dict info) :=
  match select_scripts section fl all0 with
  | (ws, inl e) => (ws, inl e)
  | (ws, inr (all1, all_scripts)) =>
      match check_environments script_environment_warning env
                               (Dict.items (Dict.copy all_scripts))
                               all_scripts with
      | (ws', inl e) => (ws ++ ws', inl e)
      | (ws', inr kept) => (ws ++ ws', inr (all1, kept))
      end
  end.

(** ** Assembling and building the task graph *)

(** Modelled from the spec: [cupid.util.create_ploomber_nb_task] and
    [cupid.util.create_ploomber_script_task] are not part of the sources
    at hand.  Each attaches one node carrying the execution parameters it
    is given (catalog path or none, notebook root, output directory for
    notebooks, global parameters, the task's own metadata) and the
    declared dependency, whose edges are resolved when the graph is built. *)
Definition add_task (t : task) : M unit :=
  g <- read_dag ;;
  modify (with_dag {| dag_executor := dag_executor g;
                      dag_tasks := dag_tasks g ++ [t] |}).

(** Modelled from the spec: [cupid.util.create_ploomber_nb_task], a node
    for a notebook, with its output directory. *)
Definition create_ploomber_nb_task (nb : string) (i : info)
  (cat_path : option string) (nb_path_root output_dir : string)
  (gp : params_ref) (dep : option dependency) : M unit :=
  add_task {| task_name := nb; task_kind_of := Notebook; task_info := i;
              task_cat_path := cat_path; task_nb_path_root := nb_path_root;
              task_output_dir := Some output_dir;
              task_global_params := gp; task_dependency := dep |}.

(** Modelled from the spec: [cupid.util.create_ploomber_script_task], a
    node for a script; it has no output directory. *)
Definition create_ploomber_script_task (script : string) (i : info)
  (cat_path : option string) (nb_path_root : string)
  (gp : params_ref) (dep : option dependency) : M unit :=
  add_task {| task_name := script; task_kind_of := Script; task_info := i;
              task_cat_path := cat_path; task_nb_path_root := nb_path_root;
              task_output_dir := None;
              task_global_params := gp; task_dependency := dep |}.

(** The names a task declares as predecessors. *)
Definition upstream (t : task) : list string :=
  match task_dependency t with
  | None => []
  | Some (Dep_name s) => [s]
  | Some (Dep_list l) => l
  end.

Definition mem (s : string) (l : list string) : bool :=
  existsb (String.eqb s) l.

(** Modelled from the spec: the first dependency that names none of the
    supplied tasks. *)
Fixpoint first_unresolved (supplied : list string) (ts : list task)
  : option (string * string) :=
  match ts with
  | [] => None
  | t :: ts' =>
      match find (fun d => negb (mem d supplied)) (upstream t) with
      | Some d => Some (task_name t, d)
      | None => first_unresolved supplied ts'
      end
  end.

(** Modelled from the spec: a task is ready when every predecessor it
    names is done. *)
Definition ready (done : list string) (t : task) : bool :=
  forallb (fun d => mem d done) (upstream t).

(** Modelled from the spec: the "execute the ready set, wait, advance"
    loop of the executors, which is not part of the sources at hand.  It
    gives the successive ready sets, or [None] when tasks remain and none
    of them is ready. *)
Fixpoint ready_sets (fuel : nat) (pending : list task) (done : list string)
  : option (list (list string)) :=
  match pending with
  | [] => Some []
  | _ :: _ =>
      match fuel with
      | O => None
      | S fuel' =>
          let now := filter (ready done) pending in
          let later := filter (fun t => negb (ready done t)) pending in
          match now with
          | [] => None
          | _ :: _ =>
              option_map (cons (map task_name now))
                (ready_sets fuel' later (done ++ map task_name now))
          end
      end
  end.

(** Modelled from the spec: the serial executor runs one task at a time;
    the parallel one dispatches a whole ready set at once. *)
Definition dispatch (ex : executor) (sets : list (list string))
  : list (list string) :=
  match ex with
  | Serial => map (fun n => [n]) (concat sets)
  | Parallel => sets
  end.

(** Modelled from the spec: [dag.build()] belongs to the workflow library
    and the edge resolution to [cupid.util].  A dependency naming no
    supplied task is an [UnresolvedDependencyError], a cycle among the
    assembled edges a [CyclicDependencyError], both before anything is
    executed; otherwise the batches are dispatched in dependency order. *)
Definition assemble (g : DAG) : exn + list (list string) :=
  match first_unresolved (map task_name (dag_tasks g)) (dag_tasks g) with
  | Some (t, d) => inl (UnresolvedDependencyError t d)
  | None =>
      match ready_sets (length (dag_tasks g)) (dag_tasks g) [] with
      | None => inl CyclicDependencyError
      | Some sets => inr (dispatch (dag_executor g) sets)
      end
  end.

(** [dag.build()] on the object bound to [dag]. *)
Definition dag_build : M unit :=
  g <- read_dag ;;
  match assemble g with
  | inl e => raise e
  | inr batches => modify (with_executed batches)
  end.

(** ** The command *)

Section Run.

(** What [run] gets from its environment: the configuration loader of
    [cupid.util] and the path functions of [os.path]. *)
Variable get_control_dict : string -> exn + control.
Variable realpath : string -> string.
Variable expanduser : string -> string.

(** [control = cupid.util.get_control_dict(config_path)] *)
Definition load_control (config_path : string) : M unit :=
  external (Call_get_control_dict config_path) ;;
  match get_control_dict config_path with
  | inl e => raise e
  | inr c => modify (with_control c)
  end.

(** [control['data_sources']] *)
Definition control_data_sources : M data_sources :=
  c <- read_control ;;
  subscript "data_sources" (ctl_data_sources c).

(** Lines 58-75: the catalog path handed to every task. *)
Definition manage_catalog (temp_data_path : string) : M (option string) :=
  ds <- control_data_sources ;;
  match path_to_cat_json ds with
  | None => ret None
  | Some p =>
      let full_cat_path := realpath (expanduser p) in
      external (Call_open_esm_datastore full_cat_path) ;;
      ds <- control_data_sources ;;
      match subset ds with
      | Some first_subset_kwargs =>
          external (Call_search first_subset_kwargs) ;;
          let cat_subset_name :=
            (hd EmptyString (split "." (last (split "/" full_cat_path) EmptyString))
               ++ "_subset")%string in
          external (Call_serialize temp_data_path cat_subset_name "file") ;;
          ret (Some (temp_data_path ++ "/" ++ cat_subset_name ++ ".json")%string)
      | None => ret (Some full_cat_path)
      end
  end.

(** Lines 81-84: which object [global_params] names. *)
Definition manage_global_params : M params_ref :=
  modify (with_fresh_params []) ;;
  c <- read_control ;;
  match global_params c with
  | Some _ => ret Ref_control
  | None => ret Ref_fresh
  end.

(** Lines 102-146. *)
Definition organize_notebooks (fl : flags) (all0 : bool)
  (cat_path : option string) (nb_path_root output_dir : string)
  (gp : params_ref) : M bool :=
  c <- read_control ;;
  match compute_notebooks c with
  | None => ret all0
  | Some section =>
      selected <- emit (notebook_universe (env_check c) section fl all0) ;;
      for_each (Dict.items (snd selected))
        (fun item =>
           let nb := fst item in
           let i := snd item in
           store_param gp "serial" (PyBool (serial fl)) ;;
           match info_dependency i with
           | Some d =>
               create_ploomber_nb_task nb i cat_path nb_path_root
                                       output_dir gp (Some d)
           | None =>
               create_ploomber_nb_task nb i cat_path nb_path_root
                                       output_dir gp None
           end) ;;
      ret (fst selected)
  end.

(** Lines 151-190. *)
Definition organize_scripts (fl : flags) (all0 : bool)
  (cat_path : option string) (nb_path_root : string)
  (gp : params_ref) : M bool :=
  c <- read_control ;;
  match compute_scripts c with
  | None => ret all0
  | Some section =>
      selected <- emit (script_universe (env_check c) section fl all0) ;;
      for_each (Dict.items (snd selected))
        (fun item =>
           let script := fst item in
           let i := snd item in
           match info_dependency i with
           | Some d =>
               create_ploomber_script_task script i cat_path nb_path_root
                                           gp (Some d)
           | None =>
               create_ploomber_script_task script i cat_path nb_path_root
                                           gp None
           end) ;;
      ret (fst selected)
  end.

(** Lines 90-194: the graph is created with the serial executor, filled
    with the notebook and script tasks, and built. *)
Definition organize_and_build (fl : flags) (cat_path : option string)
  (nb_path_root output_dir : string) (gp : params_ref) : M unit :=
  modify (with_dag {| dag_executor := Serial; dag_tasks := [] |}) ;;
  all1 <- organize_notebooks fl (all fl) cat_path nb_path_root output_dir gp ;;
  _ <- organize_scripts fl all1 cat_path nb_path_root gp ;;
  dag_build.

(** Everything after the [--time-series] guard. *)
Definition run_diagnostics (config_path : string) (fl : flags) : M unit :=
  load_control config_path ;;
  external (Call_setup_book config_path) ;;
  ds <- control_data_sources ;;
  rd <- subscript "run_dir" (run_dir ds) ;;
  let run_dir := realpath (expanduser rd) in
  ds <- control_data_sources ;;
  sn <- subscript "sname" (sname ds) ;;
  let output_dir := (run_dir ++ "/computed_notebooks/" ++ sn)%string in
  let temp_data_path := (run_dir ++ "/temp_data")%string in
  ds <- control_data_sources ;;
  nbr <- subscript "nb_path_root" (nb_path_root ds) ;;
  let nb_path_root := realpath (expanduser nbr) in
  cat_path <- manage_catalog temp_data_path ;;
  gp <- manage_global_params ;;
  organize_and_build fl cat_path nb_path_root output_dir gp.

Definition run (config_path : string) (fl : flags) : M unit :=
  (if time_series fl then
     modify (with_tracebacklimit 0) ;;
     raise (NotImplementedError "--time-series option not implemented yet")
   else ret tt) ;;
  run_diagnostics config_path fl.

End Run.

(** * Notions used in the statements *)

(** A dictionary value has no key twice. *)
Definition well_formed {V} (d : dict V) : Prop := NoDup (Dict.keys d).

(** The entry the last of [categories] holding [k] has for it. *)
Fixpoint last_write (k : string) (categories : list (dict info))
  : option info :=
  match categories with
  | [] => None
  | category :: rest =>
      match last_write k rest with
      | Some i => Some i
      | None => Dict.get k (rev category)
      end
  end.

(** The categories of the flagged components that the section has, in
    the order of [component_options]. *)
Fixpoint flagged_categories (section : dict (dict info))
  (options : list (string * bool)) : list (dict info) :=
  match options with
  | [] => []
  | (comp_name, comp_bool) :: rest =>
      if comp_bool then
        match Dict.get comp_name section with
        | Some category => category :: flagged_categories section rest
        | None => flagged_categories section rest
        end
      else flagged_categories section rest
  end.

(** The categories [select_notebooks] writes into [all_nbs], in order. *)
Definition notebook_writes (section : dict (dict info)) (fl : flags)
  (all0 : bool) : list (dict info) :=
  match Dict.get "infrastructure" section with
  | None => []
  | Some infrastructure =>
      infrastructure ::
      (if no_component fl || all0 then Dict.values section
       else flagged_categories section (Dict.items (component_options fl)))
  end.

(** The categories [select_scripts] writes into [all_scripts], in order. *)
Definition script_writes (section : dict (dict info)) (fl : flags)
  (all0 : bool) : list (dict info) :=
  if no_component fl || all0 then Dict.values section
  else flagged_categories section (Dict.items (component_options fl)).


(** Refinement target of the merge order, following the specification:
    infrastructure first, then the remaining categories in configuration
    order. *)
Definition spec_merge_order (section : dict (dict info)) : list (dict info) :=
  match Dict.get "infrastructure" section with
  | None => Dict.values section
  | Some infrastructure =>
      infrastructure ::
      Dict.values
        (filter (fun item => negb (String.eqb (fst item) "infrastructure"))
                section)
  end.

(** The names of the tasks of a universe, when it was built. *)
Definition universe_names (o : outcome (bool * dict info))
  : option (list string) :=
  match snd o with
  | inl _ => None
  | inr (_, u) => Some (Dict.keys u)
  end.

(** The environment mapping answers for the kernel of the entry. *)
Definition kernel_known (env : dict bool) (item : string * info) : Prop :=
  exists kernel b,
    kernel_name (snd item) = Some kernel /\ Dict.get kernel env = Some b.

(** The environment mapping says the kernel of the entry is there. *)
Definition kernel_available (env : dict bool) (item : string * info) : bool :=
  match kernel_name (snd item) with
  | Some kernel =>
      match Dict.get kernel env with
      | Some b => b
      | None => false
      end
  | None => false
  end.

Definition kernel_unavailable (env : dict bool) (item : string * info)
  : bool :=
  negb (kernel_available env item).

(** The warning issued for a dropped entry. *)
Definition environment_warning (message : string -> string -> string)
  (item : string * info) : string :=
  message (match kernel_name (snd item) with Some k => k | None => EmptyString end)
          (fst item).

(** [d.pop(k)] for each of [ks] in turn. *)
Definition pop_all (ks : list string) (d : dict info) : dict info :=
  fold_left (fun acc k => Dict.pop k acc) ks d.

(** The two universes [run] builds, from [compute_notebooks] and from
    [compute_scripts]. *)
Inductive universe_kind : Type := Notebooks | Scripts.

Definition select (kind : universe_kind)
  : dict (dict info) -> flags -> bool -> outcome (bool * dict info) :=
  match kind with
  | Notebooks => select_notebooks
  | Scripts => select_scripts
  end.

Definition build_universe (kind : universe_kind)
  : option (dict bool) -> dict (dict info) -> flags -> bool ->
    outcome (bool * dict info) :=
  match kind with
  | Notebooks => notebook_universe
  | Scripts => script_universe
  end.

Definition writes (kind : universe_kind)
  : dict (dict info) -> flags -> bool -> list (dict info) :=
  match kind with
  | Notebooks => notebook_writes
  | Scripts => script_writes
  end.

Definition warning_message (kind : universe_kind)
  : string -> string -> string :=
  match kind with
  | Notebooks => nb_environment_warning
  | Scripts => script_environment_warning
  end.




(** Every declared dependency names a supplied task. *)
Definition resolved (ts : list task) : Prop :=
  forall t d, In t ts -> In d (upstream t) -> In d (map task_name ts).

(** In [order], started after [done], every task comes after all the
    predecessors it names. *)
Fixpoint respects_edges (done : list string) (order : list task) : Prop :=
  match order with
  | [] => True
  | t :: rest =>
      (forall d, In d (upstream t) -> In d done) /\
      respects_edges (done ++ [task_name t]) rest
  end.

(** The object [global_params] names once lines 81-84 have run. *)
Definition params_object (c : control) : params_ref :=
  match global_params c with
  | Some _ => Ref_control
  | None => Ref_fresh
  end.

(** [c'] is [c], but for the key [serial] that may have been set to [v] in
    its global parameters. *)
Definition control_touched (c c' : control) (v : pyval) : Prop :=
  ctl_data_sources c' = ctl_data_sources c /\
  env_check c' = env_check c /\
  compute_notebooks c' = compute_notebooks c /\
  compute_scripts c' = compute_scripts c /\
  (global_params c' = global_params c \/
   exists g, global_params c = Some g /\
             global_params c' = Some (Dict.setitem "serial" v g)).

(** The dictionary behind [gp] binds [serial] to [v]. *)
Definition serial_forwarded (gp : params_ref) (v : pyval) (w : world)
  : Prop :=
  exists g, deref gp w = Some g /\ Dict.get "serial" g = Some v.

(** What holds once the graph is created. *)
Record graph_state (c : control) (v : pyval) (cat_path : option string)
  (gp : params_ref) (calls0 : list call) (w : world) : Prop := {
  inv_calls : calls w = calls0;
  inv_control :
    exists c', obj_control w = Some c' /\ control_touched c c' v;
  inv_dag :
    exists ts,
      obj_dag w = Some {| dag_executor := Serial; dag_tasks := ts |} /\
      Forall (fun t => task_cat_path t = cat_path /\
                       task_global_params t = gp) ts /\
      ((exists t, In t ts /\ task_kind_of t = Notebook) ->
       serial_forwarded gp v w)
}.

(** What holds from the creation of the graph to its build. *)
Definition graph_inv (c : control) (v : pyval) (cat_path : option string)
  (gp : params_ref) (calls0 : list call) (w : world) : Prop :=
  graph_state c v cat_path gp calls0 w /\ executed w = [].

(** Nothing was executed, or every task of the graph was executed once,
    alone, after the predecessors it names. *)
Definition executed_serially (w : world) : Prop :=
  executed w = [] \/
  exists g order,
    obj_dag w = Some g /\
    Permutation order (dag_tasks g) /\
    executed w = map (fun t => [task_name t]) order /\
    respects_edges [] order.

(** The computation [m], started in [w], ends in a world and with a
    result that satisfy [Q]. *)
Definition after {A} (m : M A) (w : world)
  (Q : world -> exn + A -> Prop) : Prop :=
  Q (fst (m w)) (snd (m w)).

(** [c] occurs in [s]. *)
Fixpoint has_char (c : ascii) (s : string) : bool :=
  match s with
  | EmptyString => false
  | String a s' => Ascii.eqb a c || has_char c s'
  end.

(** The control structure is loaded and the graph not yet created. *)
Definition loaded (c : control) (w : world) : Prop :=
  obj_control w = Some c /\ obj_dag w = None /\ executed w = [].

(** How a run ends: before the graph exists, with the control structure
    either never loaded or still as loaded; or with the graph created. *)
Definition run_post (get_control_dict : string -> exn + control)
  (config_path : string) (fl : flags) (w' : world) (r : exn + unit)
  : Prop :=
  (obj_dag w' = None /\ executed w' = [] /\ obj_control w' = None /\
   (time_series fl = true \/ exists e, get_control_dict config_path = inl e))
  \/
  (exists c,
      get_control_dict config_path = inr c /\ time_series fl = false /\
      obj_dag w' = None /\ executed w' = [] /\ obj_control w' = Some c)
  \/
  (exists c cat_path calls0,
      get_control_dict config_path = inr c /\ time_series fl = false /\
      graph_state c (PyBool (serial fl)) cat_path (params_object c)
                  calls0 w' /\
      executed_serially w').

(** * Configurations used as examples *)

Definition entry (kernel : string) (dep : option dependency) : info :=
  {| kernel_name := Some kernel; info_dependency := dep; parameters := [] |}.

Definition flags_of (serial_flag all_flag component_flags : bool) : flags :=
  {| serial := serial_flag; time_series := false; all := all_flag;
     atmosphere := component_flags; ocean := component_flags;
     land := component_flags; seaice := component_flags;
     landice := component_flags |}.

(** No option given. *)
Definition no_flags : flags := flags_of false false false.

(** The five component options given, [--all] not. *)
Definition five_flags : flags := flags_of false false true.

(** [--atmosphere] alone. *)
Definition atmosphere_only : flags :=
  {| serial := false; time_series := false; all := false;
     atmosphere := true; ocean := false; land := false; seaice := false;
     landice := false |}.

(** [--time-series] alone. *)
Definition time_series_only : flags :=
  {| serial := false; time_series := true; all := false;
     atmosphere := false; ocean := false; land := false; seaice := false;
     landice := false |}.

(** The catalog of the specification's scenario. *)
Definition scenario_section : dict (dict info) :=
  [ ("infrastructure", [("setup", entry "base" None)]);
    ("atmosphere", [("plot_atm", entry "base" (Some (Dep_name "setup")))]) ].

Definition scenario_data_sources : data_sources :=
  {| run_dir := Some "/scratch/run"; sname := Some "case1";
     nb_path_root := Some "/cupid/nblibrary";
     path_to_cat_json := None; subset := None |}.

Definition control_with (ds : data_sources) (gp : option (dict pyval))
  (env : option (dict bool)) (nbs scripts : option (dict (dict info)))
  : control :=
  {| ctl_data_sources := Some ds; global_params := gp; env_check := env;
     compute_notebooks := nbs; compute_scripts := scripts |}.

(** Notebooks only, every kernel available. *)
Definition scenario_control : control :=
  control_with scenario_data_sources (Some [("lc_kwargs", PyOther "{}")])
               (Some [("base", true)]) (Some scenario_section) None.


(** A notebook whose kernel the environment mapping does not list. *)
Definition unknown_kernel_section : dict (dict info) :=
  [ ("infrastructure", [("setup", entry "cupid-analysis" None)]) ].

Definition unknown_kernel_control : control :=
  control_with scenario_data_sources None
               (Some [("base", true)]) (Some unknown_kernel_section) None.

(** One kernel available and one not. *)
Definition mixed_env : dict bool := [("base", true); ("npl", false)].

Definition mixed_section : dict (dict info) :=
  [ ("infrastructure", [("setup", entry "base" None)]);
    ("ocean", [("plot_ocn", entry "npl" None)]) ].

Definition mixed_control : control :=
  control_with scenario_data_sources None (Some mixed_env)
               (Some mixed_section) (Some mixed_section).

(** A name bound in two categories, infrastructure listed last. *)
Definition collision_section : dict (dict info) :=
  [ ("atmosphere", [("index", entry "atm-kernel" None)]);
    ("infrastructure", [("index", entry "base" None)]) ].

Definition task_of (name : string) (dep : option dependency) : task :=
  {| task_name := name; task_kind_of := Notebook;
     task_info := entry "base" dep; task_cat_path := None;
     task_nb_path_root := "/cupid/nblibrary";
     task_output_dir := Some "/scratch/run/computed_notebooks/case1";
     task_global_params := Ref_fresh; task_dependency := dep |}.

Definition graph_of (ts : list task) : DAG :=
  {| dag_executor := Serial; dag_tasks := ts |}.

Definition world_of (ts : list task) : world :=
  with_dag (graph_of ts) initial_world.

(** [plot_atm] depends on a task nobody supplies. *)
Definition dangling_tasks : list task :=
  [ task_of "setup" None;
    task_of "plot_atm" (Some (Dep_name "missing_task")) ].

(** Two tasks that depend on each other. *)
Definition cyclic_tasks : list task :=
  [ task_of "a" (Some (Dep_name "b")); task_of "b" (Some (Dep_name "a")) ].

(** A loader that returns the scenario, and path functions that leave
    absolute paths as they are. *)
Definition scenario_loader (config_path : string) : exn + control :=
  inr scenario_control.

Definition same_path (p : string) : string := p.



(** The scenario with a catalog and a subset of it. *)
Definition catalog_data_sources : data_sources :=
  {| run_dir := Some "/scratch/run"; sname := Some "case1";
     nb_path_root := Some "/cupid/nblibrary";
     path_to_cat_json := Some "/data/catalogs/cesm.v2.json";
     subset := Some [("case", PyStr "b.e23.control")] |}.

Definition catalog_loader (config_path : string) : exn + control :=
  inr (control_with catalog_data_sources None (Some [("base", true)])
                    (Some scenario_section) None).

(** A notebook of unknown kernel listed before one of unavailable
    kernel. *)
Definition unknown_first_section : dict (dict info) :=
  [ ("infrastructure",
     [("index", entry "cupid-analysis" None); ("last", entry "npl" None)]) ].

(** * Further notions *)

(** The word the warnings use for the tasks of a universe. *)
Definition kind_noun (kind : universe_kind) : string :=
  match kind with
  | Notebooks => "notebooks"
  | Scripts => "scripts"
  end.

(** The flagged components the section has no category for. *)
Definition absent_components (section : dict (dict info))
  (options : list (string * bool)) : list string :=
  map fst
      (filter (fun option => snd option
                             && negb (Dict.contains (fst option) section))
              options).

(** The task [run] creates for an entry of the notebook universe. *)
Definition notebook_task (cat_path : option string)
  (nb_path_root output_dir : string) (gp : params_ref)
  (item : string * info) : task :=
  {| task_name := fst item; task_kind_of := Notebook;
     task_info := snd item; task_cat_path := cat_path;
     task_nb_path_root := nb_path_root;
     task_output_dir := Some output_dir;
     task_global_params := gp;
     task_dependency := info_dependency (snd item) |}.

(** The task [run] creates for an entry of the script universe. *)
Definition script_task (cat_path : option string) (nb_path_root : string)
  (gp : params_ref) (item : string * info) : task :=
  {| task_name := fst item; task_kind_of := Script;
     task_info := snd item; task_cat_path := cat_path;
     task_nb_path_root := nb_path_root;
     task_output_dir := None;
     task_global_params := gp;
     task_dependency := info_dependency (snd item) |}.

(** The notebook universe of a control structure: nothing when it has no
    [compute_notebooks]. *)
Definition selected_notebooks (c : control) (fl : flags)
  : outcome (bool * dict info) :=
  match compute_notebooks c with
  | None => ([], inr (all fl, []))
  | Some section => notebook_universe (env_check c) section fl (all fl)
  end.

(** The script universe of a control structure: nothing when it has no
    [compute_scripts]. *)
Definition selected_scripts (c : control) (fl : flags)
  : outcome (bool * dict info) :=
  match compute_scripts c with
  | None => ([], inr (all fl, []))
  | Some section => script_universe (env_check c) section fl (all fl)
  end.

(** The first key lines 48-51 look up and do not find. *)
Definition first_missing_key (c : control) : option string :=
  match ctl_data_sources c with
  | None => Some "data_sources"
  | Some ds =>
      match run_dir ds, sname ds, nb_path_root ds with
      | None, _, _ => Some "run_dir"
      | Some _, None, _ => Some "sname"
      | Some _, Some _, None => Some "nb_path_root"
      | Some _, Some _, Some _ => None
      end
  end.

(** Storing into the object behind [gp] cannot fail. *)
Definition params_valid (gp : params_ref) (w : world) : Prop :=
  gp = Ref_control ->
  exists c g, obj_control w = Some c /\ global_params c = Some g.


(** A configuration without [data_sources]. *)
Definition no_data_sources_loader (config_path : string) : exn + control :=
  inr {| ctl_data_sources := None; global_params := None;
         env_check := None; compute_notebooks := None;
         compute_scripts := None |}.

(** The scenario with a catalog and no subset of it. *)
Definition whole_catalog_data_sources : data_sources :=
  {| run_dir := Some "/scratch/run"; sname := Some "case1";
     nb_path_root := Some "/cupid/nblibrary";
     path_to_cat_json := Some "/data/catalogs/cesm.v2.json";
     subset := None |}.

Definition whole_catalog_loader (config_path : string) : exn + control :=
  inr (control_with whole_catalog_data_sources None (Some [("base", true)])
                    (Some scenario_section) None).

(** A subset requested for no catalog. *)
Definition subset_only_data_sources : data_sources :=
  {| run_dir := Some "/scratch/run"; sname := Some "case1";
     nb_path_root := Some "/cupid/nblibrary";
     path_to_cat_json := None;
     subset := Some [("case", PyStr "b.e23.control")] |}.

Definition subset_only_loader (config_path : string) : exn + control :=
  inr (control_with subset_only_data_sources None (Some [("base", true)])
                    (Some scenario_section) None).

(** The five component options without [--all], on the mixed catalog. *)
Definition mixed_loader (config_path : string) : exn + control :=
  inr mixed_control.

(** The world once the control structure is loaded and [setup_book] has
    been called. *)
Definition loaded_world (config_path : string) (c : control) : world :=
  with_call (Call_setup_book config_path)
    (with_control c
       (with_call (Call_get_control_dict config_path) initial_world)).

(** [w'] differs from [w] in the graph and the warnings at most. *)
Definition same_objects (w w' : world) : Prop :=
  tracebacklimit w' = tracebacklimit w /\
  calls w' = calls w /\
  obj_control w' = obj_control w /\
  obj_fresh_params w' = obj_fresh_params w /\
  executed w' = executed w.

(** Notebooks whose kernel the mapping does not list. *)
Definition unknown_kernel_loader (config_path : string) : exn + control :=
  inr unknown_kernel_control.

(** Notebooks that can run and a script whose kernel is not listed. *)
Definition script_error_control : control :=
  control_with scenario_data_sources None (Some [("base", true)])
               (Some scenario_section) (Some unknown_kernel_section).

Definition script_error_loader (config_path : string) : exn + control :=
  inr script_error_control.


(** [--serial] alone. *)
Definition serial_only : flags := flags_of true false false.

(** Notebooks and a script, with global parameters in the configuration. *)
Definition both_control : control :=
  control_with scenario_data_sources (Some [("lc_kwargs", PyOther "{}")])
               (Some [("base", true)]) (Some scenario_section)
               (Some [("ocean",
                       [("regrid", entry "base" (Some (Dep_name "setup")))])]).

Definition both_loader (config_path : string) : exn + control :=
  inr both_control.




(** The catalog of the scenario under another version number. *)
Definition catalog_v1_loader (config_path : string) : exn + control :=
  inr (control_with
         {| run_dir := Some "/scratch/run"; sname := Some "case1";
            nb_path_root := Some "/cupid/nblibrary";
            path_to_cat_json := Some "/data/catalogs/cesm.v1.json";
            subset := Some [("case", PyStr "b.e23.control")] |}
         None (Some [("base", true)]) (Some scenario_section) None).
(** * Properties *)

Unset Implicit Arguments.

(** ** Dictionaries *)

Section DictFacts.
Variable V : Type.
Implicit Types (d : dict V) (k : string) (v : V).

Lemma get_setitem k k' v d :
  Dict.get k (Dict.setitem k' v d)
  = if String.eqb k k' then Some v else Dict.get k d.
Proof.
  induction d as [|[k0 v0] d IH]; simpl.
  - reflexivity.
  - destruct (String.eqb_spec k' k0) as [->|Hne]; simpl.
    + destruct (String.eqb k k0); reflexivity.
    + rewrite IH.
      destruct (String.eqb_spec k k0) as [->|Hne'].
      * destruct (String.eqb_spec k0 k') as [E|_]; [congruence|reflexivity].
      * reflexivity.
Qed.

Lemma get_app k d d' :
  Dict.get k (d ++ d')
  = match Dict.get k d with Some v => Some v | None => Dict.get k d' end.
Proof.
  induction d as [|[k0 v0] d IH]; simpl; [reflexivity|].
  destruct (String.eqb k k0); [reflexivity|exact IH].
Qed.

Lemma get_None_keys k d : Dict.get k d = None <-> ~ In k (Dict.keys d).
Proof.
  induction d as [|[k0 v0] d IH]; simpl.
  - tauto.
  - destruct (String.eqb_spec k k0) as [->|Hne].
    + split; [discriminate|tauto].
    + rewrite IH. split; [intros H [E|Hin]; [congruence|tauto]|tauto].
Qed.

Lemma get_Some_In k v d : Dict.get k d = Some v -> In (k, v) d.
Proof.
  induction d as [|[k0 v0] d IH]; simpl; [discriminate|].
  destruct (String.eqb_spec k k0) as [->|Hne].
  - intros [= ->]. now left.
  - intros H. right. auto.
Qed.

Lemma In_get_Some k v d : well_formed d -> In (k, v) d -> Dict.get k d = Some v.
Proof.
  unfold well_formed.
  induction d as [|[k0 v0] d IH]; simpl; [tauto|].
  intros Hnd [E|Hin]; inversion Hnd as [|? ? Hnotin Hnd']; subst.
  - inversion E; subst. now rewrite String.eqb_refl.
  - destruct (String.eqb_spec k k0) as [->|Hne]; [|auto].
    exfalso. apply Hnotin. change (In (fst (k0, v)) (map fst d)).
    now apply in_map.
Qed.

Lemma contains_keys k d : Dict.contains k d = true <-> In k (Dict.keys d).
Proof.
  unfold Dict.contains. destruct (Dict.get k d) eqn:E.
  - split; [intros _|reflexivity].
    apply get_Some_In in E. change k with (fst (k, v)). now apply in_map.
  - apply get_None_keys in E. split; [discriminate|tauto].
Qed.

Lemma keys_setitem_In x k v d :
  In x (Dict.keys (Dict.setitem k v d)) <-> x = k \/ In x (Dict.keys d).
Proof.
  induction d as [|[k0 v0] d IH]; simpl.
  - intuition.
  - destruct (String.eqb_spec k k0) as [->|Hne]; simpl.
    + intuition.
    + rewrite IH. intuition.
Qed.

Lemma well_formed_setitem k v d :
  well_formed d -> well_formed (Dict.setitem k v d).
Proof.
  unfold well_formed.
  induction d as [|[k0 v0] d IH]; simpl; intros Hnd.
  - constructor; [simpl; tauto|constructor].
  - inversion Hnd as [|? ? Hnotin Hnd']; subst.
    destruct (String.eqb_spec k k0) as [->|Hne]; simpl.
    + now constructor.
    + constructor; [|auto].
      intros Hin. apply keys_setitem_In in Hin.
      destruct Hin as [E|Hin]; [congruence|tauto].
Qed.

Lemma In_setitem x k v d :
  In x (Dict.setitem k v d) -> x = (k, v) \/ In x d.
Proof.
  induction d as [|[k0 v0] d IH]; simpl.
  - intuition.
  - destruct (String.eqb_spec k k0) as [->|Hne]; simpl.
    + intros [E|Hin]; [left; now symmetry|right; now right].
    + intros [E|Hin]; [right; now left|].
      destruct (IH Hin); [now left|right; now right].
Qed.

Lemma setitem_idempotent k v d :
  Dict.setitem k v (Dict.setitem k v d) = Dict.setitem k v d.
Proof.
  induction d as [|[k0 v0] d IH]; simpl.
  - now rewrite String.eqb_refl.
  - destruct (String.eqb_spec k k0) as [->|Hne]; simpl.
    + now rewrite String.eqb_refl.
    + destruct (String.eqb_spec k k0); [congruence|]. now rewrite IH.
Qed.

Lemma keys_rev d : Dict.keys (rev d) = rev (Dict.keys d).
Proof. unfold Dict.keys. now rewrite map_rev. Qed.

Lemma get_rev k d : well_formed d -> Dict.get k (rev d) = Dict.get k d.
Proof.
  intros Hwf.
  assert (Hwf' : well_formed (rev d)).
  { unfold well_formed. rewrite keys_rev. now apply NoDup_rev. }
  destruct (Dict.get k d) as [v|] eqn:E.
  - apply In_get_Some; [exact Hwf'|].
    apply in_rev. rewrite rev_involutive. now apply get_Some_In.
  - apply get_None_keys. rewrite keys_rev, <- in_rev.
    now apply get_None_keys.
Qed.

(** On a well-formed dictionary [pop] removes every entry of the key. *)
Lemma pop_filter k d :
  well_formed d ->
  Dict.pop k d = filter (fun item => negb (String.eqb (fst item) k)) d.
Proof.
  unfold well_formed.
  induction d as [|[k0 v0] d IH]; simpl; [reflexivity|].
  intros Hnd. inversion Hnd as [|? ? Hnotin Hnd']; subst.
  rewrite (String.eqb_sym k0 k).
  destruct (String.eqb_spec k k0) as [->|Hne]; simpl.
  - symmetry. apply forallb_filter_id. apply forallb_forall.
    intros [k1 v1] Hin. simpl.
    destruct (String.eqb_spec k1 k0) as [->|]; [|reflexivity].
    exfalso. apply Hnotin. change (In (fst (k0, v1)) (map fst d)).
    now apply in_map.
  - now rewrite IH.
Qed.

Lemma well_formed_filter (f : string * V -> bool) d :
  well_formed d -> well_formed (filter f d).
Proof.
  unfold well_formed.
  induction d as [|[k0 v0] d IH]; simpl; [auto|].
  intros Hnd. inversion Hnd as [|? ? Hnotin Hnd']; subst.
  destruct (f (k0, v0)); simpl; [|auto].
  constructor; [|auto].
  intros Hin. apply Hnotin.
  unfold Dict.keys in *. apply in_map_iff in Hin.
  destruct Hin as [x [E Hin]]. apply filter_In in Hin.
  apply in_map_iff. exists x. tauto.
Qed.
End DictFacts.

(** ** Merging categories *)

Lemma get_update_from k category all_nbs :
  Dict.get k (update_from category all_nbs)
  = match Dict.get k (rev category) with
    | Some i => Some i
    | None => Dict.get k all_nbs
    end.
Proof.
  unfold update_from, Dict.items.
  revert all_nbs. induction category as [|[k0 i0] category IH]; intros all_nbs.
  - reflexivity.
  - simpl fold_left. rewrite IH. simpl rev. rewrite get_app.
    destruct (Dict.get k (rev category)); [reflexivity|].
    simpl. rewrite get_setitem. now destruct (String.eqb k k0).
Qed.

Lemma well_formed_update_from category all_nbs :
  well_formed all_nbs -> well_formed (update_from category all_nbs).
Proof.
  unfold update_from, Dict.items.
  revert all_nbs. induction category as [|[k0 i0] category IH]; intros all_nbs H.
  - exact H.
  - simpl. apply IH. now apply well_formed_setitem.
Qed.

Lemma In_update_from item category all_nbs :
  In item (update_from category all_nbs) ->
  In item category \/ In item all_nbs.
Proof.
  unfold update_from, Dict.items.
  revert all_nbs. induction category as [|[k0 i0] category IH]; intros all_nbs H.
  - now right.
  - simpl in H. apply IH in H. destruct H as [H|H].
    + left. now right.
    + apply In_setitem in H. destruct H as [->|H]; [left; now left|now right].
Qed.

Lemma get_update_from_all k categories all_nbs :
  Dict.get k (update_from_all categories all_nbs)
  = match last_write k categories with
    | Some i => Some i
    | None => Dict.get k all_nbs
    end.
Proof.
  unfold update_from_all.
  revert all_nbs. induction categories as [|c categories IH]; intros all_nbs.
  - reflexivity.
  - simpl. rewrite IH, get_update_from.
    now destruct (last_write k categories).
Qed.

Lemma well_formed_update_from_all categories all_nbs :
  well_formed all_nbs -> well_formed (update_from_all categories all_nbs).
Proof.
  unfold update_from_all.
  revert all_nbs. induction categories as [|c categories IH]; intros all_nbs H.
  - exact H.
  - simpl. apply IH. now apply well_formed_update_from.
Qed.

Lemma update_from_all_app cs cs' all_nbs :
  update_from_all (cs ++ cs') all_nbs
  = update_from_all cs' (update_from_all cs all_nbs).
Proof. unfold update_from_all. apply fold_left_app. Qed.

Lemma select_components_writes what section options all_nbs :
  snd (select_components what section options all_nbs)
  = update_from_all (flagged_categories section options) all_nbs.
Proof.
  revert all_nbs.
  induction options as [|[comp_name comp_bool] options IH]; intros all_nbs.
  - reflexivity.
  - simpl. destruct comp_bool; [|apply IH].
    destruct (Dict.get comp_name section) as [category|].
    + rewrite IH. reflexivity.
    + specialize (IH all_nbs).
      destruct (select_components what section options all_nbs). exact IH.
Qed.

Lemma select_notebooks_writes section fl all0 ws all1 merged :
  select_notebooks section fl all0 = (ws, inr (all1, merged)) ->
  merged = update_from_all (notebook_writes section fl all0) [].
Proof.
  unfold select_notebooks, notebook_writes.
  destruct (Dict.get "infrastructure" section) as [infra|]; [|discriminate].
  destruct (no_component fl); cbv beta iota zeta delta [orb].
  - intros H; inversion H; subst; reflexivity.
  - destruct all0.
    + intros H; inversion H; subst; reflexivity.
    + pose proof (select_components_writes "notebooks" section
                    (Dict.items (component_options fl))
                    (update_from infra [])) as Hw.
      destruct (select_components "notebooks" section
                  (Dict.items (component_options fl)) (update_from infra [])).
      intros H; inversion H; subst; exact Hw.
Qed.

Lemma select_scripts_writes section fl all0 ws all1 merged :
  select_scripts section fl all0 = (ws, inr (all1, merged)) ->
  merged = update_from_all (script_writes section fl all0) [].
Proof.
  unfold select_scripts, script_writes.
  destruct (no_component fl); cbv beta iota zeta delta [orb].
  - intros H; inversion H; subst; reflexivity.
  - destruct all0.
    + intros H; inversion H; subst; reflexivity.
    + pose proof (select_components_writes "scripts" section
                    (Dict.items (component_options fl)) []) as Hw.
      destruct (select_components "scripts" section
                  (Dict.items (component_options fl)) []).
      intros H; inversion H; subst; exact Hw.
Qed.

Lemma well_formed_nil : well_formed (@nil (string * info)).
Proof. constructor. Qed.

Lemma last_write_split k i before category after :
  well_formed category ->
  Dict.get k category = Some i ->
  (forall c, In c after -> Dict.get k c = None) ->
  last_write k (before ++ category :: after) = Some i.
Proof.
  intros Hwf Hget Hafter.
  assert (Hnone : last_write k after = None).
  { induction after as [|c after IH]; [reflexivity|].
    simpl. rewrite IH by (intros; apply Hafter; now right).
    assert (Hc : Dict.get k c = None) by (apply Hafter; now left).
    apply get_None_keys. rewrite keys_rev, <- in_rev.
    now apply get_None_keys. }
  induction before as [|b before IH]; simpl.
  - rewrite Hnone. rewrite get_rev by exact Hwf. exact Hget.
  - now rewrite IH.
Qed.

(** ** The environment filter *)

Lemma well_formed_unique (d : dict info) k i i' :
  well_formed d -> In (k, i) d -> In (k, i') d -> i = i'.
Proof.
  intros Hwf H H'.
  apply In_get_Some in H; [|exact Hwf].
  apply In_get_Some in H'; [|exact Hwf]. congruence.
Qed.

Lemma filter_twice {A} (f g : A -> bool) l :
  filter f (filter g l) = filter (fun x => g x && f x) l.
Proof.
  induction l as [|x l IH]; simpl; [reflexivity|].
  destruct (g x); simpl; [destruct (f x)|]; now rewrite IH.
Qed.

Lemma pop_all_filter ks (d : dict info) :
  well_formed d ->
  pop_all ks d = filter (fun item => negb (mem (fst item) ks)) d.
Proof.
  unfold pop_all. revert d.
  induction ks as [|k ks IH]; intros d Hwf; simpl.
  - symmetry. apply forallb_filter_id. now apply forallb_forall.
  - rewrite pop_filter by exact Hwf.
    rewrite IH by now apply well_formed_filter.
    rewrite filter_twice. apply filter_ext. intros [k0 i0]. simpl.
    destruct (String.eqb k0 k); reflexivity.
Qed.

Lemma check_environments_known message env snapshot all_nbs :
  Forall (kernel_known env) snapshot ->
  check_environments message (Some env) snapshot all_nbs
  = (map (environment_warning message)
         (filter (kernel_unavailable env) snapshot),
     inr (pop_all (map fst (filter (kernel_unavailable env) snapshot))
                  all_nbs)).
Proof.
  intros Hknown. revert all_nbs.
  induction Hknown as [|[nb i] snapshot [kernel [b [Hk Hb]]] _ IH];
    intros all_nbs.
  - reflexivity.
  - simpl in Hk, Hb.
    assert (Hun : kernel_unavailable env (nb, i) = negb b).
    { unfold kernel_unavailable, kernel_available. simpl. now rewrite Hk, Hb. }
    cbn [check_environments filter]. rewrite Hk, Hb, Hun.
    destruct b; cbn [negb].
    + apply IH.
    + rewrite IH. cbn [map fst]. unfold environment_warning at 2.
      cbn [fst snd]. now rewrite Hk.
Qed.

Lemma check_environments_returns message env snapshot all_nbs ws kept :
  check_environments message env snapshot all_nbs = (ws, inr kept) ->
  snapshot = [] \/
  exists available,
    env = Some available /\ Forall (kernel_known available) snapshot.
Proof.
  destruct snapshot as [|item0 snapshot0]; [now left|right].
  destruct env as [available|]; [|destruct item0; discriminate].
  exists available. split; [reflexivity|].
  remember (item0 :: snapshot0) as snapshot eqn:E. clear E item0 snapshot0.
  revert all_nbs ws kept H.
  induction snapshot as [|[nb i] snapshot IH]; intros all_nbs ws kept H.
  - constructor.
  - simpl in H.
    destruct (kernel_name i) as [kernel|] eqn:Hk; [|discriminate].
    destruct (Dict.get kernel available) as [b|] eqn:Hb; [|discriminate].
    assert (Hthis : kernel_known available (nb, i))
      by (exists kernel, b; now split).
    destruct b.
    + constructor; [exact Hthis|]. eapply IH. exact H.
    + destruct (check_environments message (Some available) snapshot
                                    (Dict.pop nb all_nbs))
        as [ws' [e|kept']] eqn:Hrest; [discriminate|].
      constructor; [exact Hthis|]. eapply IH. exact Hrest.
Qed.

(** The filter keeps, in order, exactly the entries whose kernel is
    available. *)
Lemma check_environments_filter message env (all_nbs : dict info) :
  well_formed all_nbs ->
  Forall (kernel_known env) all_nbs ->
  check_environments message (Some env) (Dict.items (Dict.copy all_nbs))
                     all_nbs
  = (map (environment_warning message)
         (filter (kernel_unavailable env) all_nbs),
     inr (filter (kernel_available env) all_nbs)).
Proof.
  intros Hwf Hknown. unfold Dict.items, Dict.copy.
  rewrite check_environments_known by exact Hknown.
  f_equal. f_equal. rewrite pop_all_filter by exact Hwf.
  apply filter_ext_in. intros [k i] Hin. simpl.
  destruct (kernel_available env (k, i)) eqn:Hav.
  - apply negb_true_iff. unfold mem.
    destruct (existsb (String.eqb k)
                (map fst (filter (kernel_unavailable env) all_nbs))) eqn:Hex;
      [|reflexivity].
    apply existsb_exists in Hex. destruct Hex as [k' [Hin' Heq]].
    apply String.eqb_eq in Heq. subst k'.
    apply in_map_iff in Hin'. destruct Hin' as [[k' i'] [Hfst Hin']].
    simpl in Hfst. subst k'. apply filter_In in Hin'.
    destruct Hin' as [Hin' Hun].
    assert (E : i = i') by (eapply well_formed_unique; eauto). subst i'.
    unfold kernel_unavailable in Hun. rewrite Hav in Hun. discriminate.
  - apply negb_false_iff. unfold mem. apply existsb_exists.
    exists k. split; [|apply String.eqb_refl].
    change k with (fst (k, i)). apply in_map. apply filter_In.
    split; [exact Hin|]. unfold kernel_unavailable. now rewrite Hav.
Qed.

Lemma get_filter (f : string * info -> bool) (d : dict info) k i :
  well_formed d ->
  Dict.get k d = Some i ->
  Dict.get k (filter f d) = if f (k, i) then Some i else None.
Proof.
  intros Hwf Hget. destruct (f (k, i)) eqn:Hf.
  - apply In_get_Some; [now apply well_formed_filter|].
    apply filter_In. split; [now apply get_Some_In|exact Hf].
  - apply get_None_keys. intros Hin. unfold Dict.keys in Hin.
    apply in_map_iff in Hin. destruct Hin as [[k' i'] [Hfst Hin]].
    simpl in Hfst. subst k'. apply filter_In in Hin. destruct Hin as [Hin Hf'].
    apply get_Some_In in Hget.
    assert (E : i' = i) by (eapply well_formed_unique; eauto). subst i'.
    congruence.
Qed.

Lemma check_environments_app message env before rest all_nbs :
  Forall (kernel_known env) before ->
  check_environments message (Some env) (before ++ rest) all_nbs
  = (map (environment_warning message)
         (filter (kernel_unavailable env) before)
       ++ fst (check_environments message (Some env) rest
                 (pop_all (map fst (filter (kernel_unavailable env) before))
                          all_nbs)),
     snd (check_environments message (Some env) rest
            (pop_all (map fst (filter (kernel_unavailable env) before))
                     all_nbs))).
Proof.
  intros Hknown. revert all_nbs.
  induction Hknown as [|[nb i] before [kernel [b [Hk Hb]]] _ IH];
    intros all_nbs.
  - simpl. now destruct (check_environments message (Some env) rest all_nbs).
  - simpl in Hk, Hb.
    assert (Hun : kernel_unavailable env (nb, i) = negb b).
    { unfold kernel_unavailable, kernel_available. simpl. now rewrite Hk, Hb. }
    rewrite <- app_comm_cons. cbn [check_environments filter].
    rewrite Hk, Hb, Hun.
    destruct b; cbn [negb].
    + apply IH.
    + rewrite IH. cbn [map fst app].
      assert (Hw : environment_warning message (nb, i) = message kernel nb).
      { unfold environment_warning. cbn [fst snd]. now rewrite Hk. }
      rewrite Hw. reflexivity.
Qed.

Lemma kernel_known_dec env item :
  {kernel_known env item} + {~ kernel_known env item}.
Proof.
  unfold kernel_known. destruct (kernel_name (snd item)) as [kernel|] eqn:Hk.
  - destruct (Dict.get kernel env) as [b|] eqn:Hb.
    + left. exists kernel, b. now split.
    + right. intros [k [b [E Hget]]]. inversion E; subst k. congruence.
  - right. intros [k [b [E _]]]. discriminate E.
Qed.

(** Either the mapping answers for every entry, or there is a first entry
    it cannot answer for. *)
Lemma first_unknown env (merged : dict info) :
  Forall (kernel_known env) merged \/
  exists before nb i after,
    merged = before ++ (nb, i) :: after /\
    Forall (kernel_known env) before /\
    ~ kernel_known env (nb, i).
Proof.
  induction merged as [|[nb i] merged IH].
  - left. constructor.
  - destruct (kernel_known_dec env (nb, i)) as [Hk|Hk].
    + destruct IH as [IH|[before [nb' [i' [after [E [Hb Hu]]]]]]].
      * left. now constructor.
      * right. exists ((nb, i) :: before), nb', i', after.
        split; [now rewrite E|]. split; [now constructor|exact Hu].
    + right. exists [], nb, i, merged. split; [reflexivity|].
      split; [constructor|exact Hk].
Qed.

(** ** The universes *)

Lemma build_universe_unfold kind env section fl all0 :
  build_universe kind env section fl all0
  = match select kind section fl all0 with
    | (ws, inl e) => (ws, inl e)
    | (ws, inr (all1, merged)) =>
        match check_environments (warning_message kind) env
                                 (Dict.items (Dict.copy merged)) merged with
        | (ws', inl e) => (ws ++ ws', inl e)
        | (ws', inr kept) => (ws ++ ws', inr (all1, kept))
        end
    end.
Proof. destruct kind; reflexivity. Qed.

Lemma select_writes kind section fl all0 ws all1 merged :
  select kind section fl all0 = (ws, inr (all1, merged)) ->
  merged = update_from_all (writes kind section fl all0) [].
Proof.
  destruct kind; [apply select_notebooks_writes|apply select_scripts_writes].
Qed.

Lemma select_well_formed kind section fl all0 ws all1 merged :
  select kind section fl all0 = (ws, inr (all1, merged)) ->
  well_formed merged.
Proof.
  intros H. rewrite (@select_writes _ _ _ _ _ _ _ H).
  apply well_formed_update_from_all, well_formed_nil.
Qed.

Lemma select_notebooks_returns section fl all0 infrastructure :
  Dict.get "infrastructure" section = Some infrastructure ->
  exists ws all1 merged,
    select_notebooks section fl all0 = (ws, inr (all1, merged)).
Proof.
  intros Hinfra. unfold select_notebooks. rewrite Hinfra.
  destruct (if no_component fl then true else all0).
  - eauto.
  - destruct (select_components "notebooks" section
                (Dict.items (component_options fl))
                (update_from infrastructure [])). eauto.
Qed.

Lemma select_scripts_returns section fl all0 :
  exists ws all1 merged,
    select_scripts section fl all0 = (ws, inr (all1, merged)).
Proof.
  unfold select_scripts.
  destruct (if no_component fl then true else all0).
  - eauto.
  - destruct (select_components "scripts" section
                (Dict.items (component_options fl)) []). eauto.
Qed.

Lemma last_write_In k category categories :
  In category categories ->
  In k (Dict.keys category) ->
  exists i, last_write k categories = Some i.
Proof.
  induction categories as [|c categories IH]; simpl; [tauto|].
  intros [->|Hin] Hk.
  - destruct (last_write k categories) as [i|]; [eauto|].
    destruct (Dict.get k (rev category)) as [i|] eqn:E; [eauto|].
    apply get_None_keys in E. rewrite keys_rev, <- in_rev in E. tauto.
  - destruct (IH Hin Hk) as [i ->]. eauto.
Qed.

(** C1, as the code has it: in either universe the environment filter
    looks the selected tasks up in order.  When the environment mapping
    answers for the kernel of every selected task, it raises nothing,
    keeps exactly the tasks whose kernel is mapped to true, in order, and
    issues one warning for each task whose kernel is mapped to false.
    Otherwise it raises [KeyError] at the first selected task the mapping
    cannot answer for, with the key [kernel_name] when the entry has none
    and with the kernel name when the mapping does not list it: the
    unavailable tasks before it have been warned about, no warning is
    issued for that task and the tasks after it are not looked at.  One
    of the two cases always applies. *)
Theorem known_kernels_filtered :
  forall kind env section fl all0 ws all1 merged,
    select kind section fl all0 = (ws, inr (all1, merged)) ->
    (Forall (kernel_known env) merged ->
     build_universe kind (Some env) section fl all0
     = (ws ++ map (environment_warning (warning_message kind))
                  (filter (kernel_unavailable env) merged),
        inr (all1, filter (kernel_available env) merged))) /\
    (forall before nb i after,
        merged = before ++ (nb, i) :: after ->
        Forall (kernel_known env) before ->
        ~ kernel_known env (nb, i) ->
        exists key,
          build_universe kind (Some env) section fl all0
          = (ws ++ map (environment_warning (warning_message kind))
                       (filter (kernel_unavailable env) before),
             inl (KeyError key)) /\
          ((kernel_name i = None /\ key = "kernel_name") \/
           (kernel_name i = Some key /\ Dict.get key env = None))) /\
    (Forall (kernel_known env) merged \/
     exists before nb i after,
       merged = before ++ (nb, i) :: after /\
       Forall (kernel_known env) before /\
       ~ kernel_known env (nb, i)).
Proof.
  intros kind env section fl all0 ws all1 merged Hsel.
  split; [|split; [|apply first_unknown]].
  - intros Hknown. rewrite build_universe_unfold, Hsel.
    rewrite check_environments_filter.
    + reflexivity.
    + eapply select_well_formed. exact Hsel.
    + exact Hknown.
  - intros before nb i after E Hknown Hunknown.
    rewrite build_universe_unfold, Hsel. unfold Dict.items, Dict.copy.
    rewrite E, check_environments_app by exact Hknown.
    cbn [check_environments].
    destruct (kernel_name i) as [kernel|] eqn:Hk.
    + destruct (Dict.get kernel env) as [b|] eqn:Hb.
      * exfalso. apply Hunknown. exists kernel, b. now split.
      * exists kernel. cbn [fst snd]. rewrite app_nil_r.
        split; [reflexivity|]. right. now split.
    + exists "kernel_name". cbn [fst snd]. rewrite app_nil_r.
      split; [reflexivity|]. left. now split.
Qed.

(** C1 on a catalog with one available and one unavailable kernel, and
    on a catalog whose first notebook has an unknown kernel and whose
    second has an unavailable one. *)
Lemma known_kernels_filtered_witness :
  (select Notebooks mixed_section no_flags false
   = ([], inr (true, [("setup", entry "base" None);
                      ("plot_ocn", entry "npl" None)])) /\
   Forall (kernel_known mixed_env)
          [("setup", entry "base" None); ("plot_ocn", entry "npl" None)] /\
   build_universe Notebooks (Some mixed_env) mixed_section no_flags false
   = ([] ++ map (environment_warning (warning_message Notebooks))
                (filter (kernel_unavailable mixed_env)
                        [("setup", entry "base" None);
                         ("plot_ocn", entry "npl" None)]),
      inr (true, filter (kernel_available mixed_env)
                        [("setup", entry "base" None);
                         ("plot_ocn", entry "npl" None)]))) /\
  (select Notebooks unknown_first_section no_flags false
   = ([], inr (true, [("index", entry "cupid-analysis" None);
                      ("last", entry "npl" None)])) /\
   [("index", entry "cupid-analysis" None); ("last", entry "npl" None)]
   = [] ++ ("index", entry "cupid-analysis" None)
        :: [("last", entry "npl" None)] /\
   Forall (kernel_known mixed_env) [] /\
   ~ kernel_known mixed_env ("index", entry "cupid-analysis" None) /\
   exists key,
     build_universe Notebooks (Some mixed_env) unknown_first_section
                    no_flags false
     = ([] ++ map (environment_warning (warning_message Notebooks))
                  (filter (kernel_unavailable mixed_env) []),
        inl (KeyError key)) /\
     ((kernel_name (entry "cupid-analysis" None) = None
       /\ key = "kernel_name") \/
      (kernel_name (entry "cupid-analysis" None) = Some key
       /\ Dict.get key mixed_env = None))).
Proof.
  assert (Hsel : select Notebooks mixed_section no_flags false
                 = ([], inr (true, [("setup", entry "base" None);
                                    ("plot_ocn", entry "npl" None)])))
    by reflexivity.
  assert (Hknown : Forall (kernel_known mixed_env)
                     [("setup", entry "base" None);
                      ("plot_ocn", entry "npl" None)]).
  { repeat constructor.
    - exists "base", true. split; reflexivity.
    - exists "npl", false. split; reflexivity. }
  assert (Hsel' : select Notebooks unknown_first_section no_flags false
                  = ([], inr (true, [("index", entry "cupid-analysis" None);
                                     ("last", entry "npl" None)])))
    by reflexivity.
  assert (Hsplit : [("index", entry "cupid-analysis" None);
                    ("last", entry "npl" None)]
                   = [] ++ ("index", entry "cupid-analysis" None)
                        :: [("last", entry "npl" None)]) by reflexivity.
  assert (Hnone : Forall (kernel_known mixed_env) []) by constructor.
  assert (Hunknown : ~ kernel_known mixed_env
                       ("index", entry "cupid-analysis" None)).
  { intros [kernel [b [Hk Hb]]]. simpl in Hk. inversion Hk; subst kernel.
    discriminate Hb. }
  split.
  - split; [exact Hsel|]. split; [exact Hknown|].
    exact (proj1 (known_kernels_filtered Notebooks mixed_env mixed_section
                    no_flags false _ _ _ Hsel) Hknown).
  - split; [exact Hsel'|]. split; [exact Hsplit|]. split; [exact Hnone|].
    split; [exact Hunknown|].
    exact (proj1 (proj2 (known_kernels_filtered Notebooks mixed_env
                           unknown_first_section no_flags false _ _ _ Hsel'))
                 [] "index" _ _ Hsplit Hnone Hunknown).
Defined.

(** C1 fails for an unknown kernel: a kernel the environment mapping
    does not list makes the filter raise [KeyError]. *)
Lemma unknown_kernel_raises :
  build_universe Notebooks (env_check unknown_kernel_control)
                 unknown_kernel_section no_flags false
  = ([], inl (KeyError "cupid-analysis")).
Proof. reflexivity. Qed.

(** C2, as the code has it: with no component option given, either
    universe is the one [--all] produces, whatever component options
    accompany [--all]. *)
Theorem no_component_selects_all :
  forall kind env section fl fl' all0,
    no_component fl = true ->
    build_universe kind env section fl all0
    = build_universe kind env section fl' true.
Proof.
  intros kind env section fl fl' all0 Hnone.
  assert (Hsel : select kind section fl all0 = select kind section fl' true).
  { destruct kind; simpl; unfold select_notebooks, select_scripts;
      rewrite Hnone; destruct (no_component fl'); reflexivity. }
  now rewrite !build_universe_unfold, Hsel.
Qed.

(** C2 on the mixed catalog: no option against [--all] with the five
    component options. *)
Lemma no_component_selects_all_witness :
  no_component no_flags = true /\
  build_universe Scripts (Some mixed_env) mixed_section no_flags false
  = build_universe Scripts (Some mixed_env) mixed_section five_flags true.
Proof.
  split; [reflexivity|].
  apply (@no_component_selects_all Scripts (Some mixed_env) mixed_section
                                   no_flags five_flags false).
  reflexivity.
Defined.

(** C2 fails against the five component options without [--all]: the
    script universe then lacks the infrastructure script that the run
    without options selects. *)
Lemma five_flags_differ :
  no_component no_flags = true /\
  universe_names (build_universe Scripts (Some [("base", true)])
                                 scenario_section no_flags false)
  = Some ["setup"; "plot_atm"] /\
  universe_names (build_universe Scripts (Some [("base", true)])
                                 scenario_section five_flags false)
  = Some ["plot_atm"] /\
  build_universe Scripts (Some [("base", true)]) scenario_section
                 no_flags false
  <> build_universe Scripts (Some [("base", true)]) scenario_section
                    five_flags false.
Proof.
  repeat split; try reflexivity. discriminate.
Qed.

Lemma infrastructure_written kind section fl all0 infrastructure :
  Dict.get "infrastructure" section = Some infrastructure ->
  kind = Notebooks \/ no_component fl || all0 = true ->
  In infrastructure (writes kind section fl all0).
Proof.
  intros Hinfra Hkind.
  assert (Hvalues : In infrastructure (Dict.values section)).
  { apply get_Some_In in Hinfra. unfold Dict.values.
    change infrastructure with (snd ("infrastructure", infrastructure)).
    now apply in_map. }
  destruct kind; simpl; unfold notebook_writes, script_writes.
  - rewrite Hinfra. now left.
  - destruct Hkind as [Hkind|Hall]; [discriminate|]. now rewrite Hall.
Qed.

(** C3, as the code has it: a task listed under [infrastructure] is
    selected into the notebook universe whatever the options are, and into
    the script universe when everything is selected ([--all], or no
    component option); when the environment filter then returns, the task
    is kept exactly if the kernel of the entry selected for its name is
    mapped to true. *)
Theorem infrastructure_selected :
  forall kind env section fl all0 infrastructure name,
    Dict.get "infrastructure" section = Some infrastructure ->
    In name (Dict.keys infrastructure) ->
    kind = Notebooks \/ no_component fl || all0 = true ->
    exists ws all1 merged i,
      select kind section fl all0 = (ws, inr (all1, merged)) /\
      Dict.get name merged = Some i /\
      forall ws' all2 kept,
        build_universe kind env section fl all0 = (ws', inr (all2, kept)) ->
        exists available kernel b,
          env = Some available /\
          kernel_name i = Some kernel /\
          Dict.get kernel available = Some b /\
          Dict.contains name kept = b.
Proof.
  intros kind env section fl all0 infrastructure name Hinfra Hname Hkind.
  assert (Hret : exists ws all1 merged,
             select kind section fl all0 = (ws, inr (all1, merged))).
  { destruct kind; simpl.
    - eapply select_notebooks_returns. exact Hinfra.
    - apply select_scripts_returns. }
  destruct Hret as [ws [all1 [merged Hsel]]].
  pose proof (@select_writes _ _ _ _ _ _ _ Hsel) as Hmerged.
  pose proof (@select_well_formed _ _ _ _ _ _ _ Hsel) as Hwf.
  assert (Hwritten : In infrastructure (writes kind section fl all0))
    by (apply infrastructure_written; assumption).
  destruct (@last_write_In name _ _ Hwritten Hname) as [i Hlast].
  assert (Hget : Dict.get name merged = Some i).
  { rewrite Hmerged, get_update_from_all. now rewrite Hlast. }
  exists ws, all1, merged, i. split; [exact Hsel|]. split; [exact Hget|].
  intros ws' all2 kept Hbuilt.
  rewrite build_universe_unfold, Hsel in Hbuilt.
  destruct (check_environments (warning_message kind) env
              (Dict.items (Dict.copy merged)) merged)
    as [ws'' [e|kept']] eqn:Hcheck; [discriminate|].
  inversion Hbuilt; subst ws' all2 kept'. clear Hbuilt.
  destruct (@check_environments_returns _ _ _ _ _ _ Hcheck)
    as [Hempty|[available [-> Hknown]]].
  - unfold Dict.items, Dict.copy in Hempty. rewrite Hempty in Hget.
    discriminate Hget.
  - unfold Dict.items, Dict.copy in Hknown.
    rewrite check_environments_filter in Hcheck by assumption.
    inversion Hcheck; subst kept. clear Hcheck.
    pose proof (@get_Some_In _ _ _ _ Hget) as Hin.
    rewrite Forall_forall in Hknown.
    destruct (Hknown _ Hin) as [kernel [b [Hk Hb]]]. simpl in Hk, Hb.
    exists available, kernel, b. repeat split; try assumption.
    unfold Dict.contains.
    rewrite (@get_filter _ _ _ _ Hwf Hget).
    unfold kernel_available. simpl. rewrite Hk, Hb. now destruct b.
Qed.

(** C3 on the notebooks of the mixed catalog, with [--atmosphere]. *)
Lemma infrastructure_selected_witness :
  Dict.get "infrastructure" mixed_section = Some [("setup", entry "base" None)]
  /\ In "setup" (Dict.keys [("setup", entry "base" None)])
  /\ (Notebooks = Notebooks \/ no_component atmosphere_only || false = true)
  /\ exists ws all1 merged i,
      select Notebooks mixed_section atmosphere_only false
      = (ws, inr (all1, merged)) /\
      Dict.get "setup" merged = Some i /\
      forall ws' all2 kept,
        build_universe Notebooks (Some mixed_env) mixed_section
                       atmosphere_only false = (ws', inr (all2, kept)) ->
        exists available kernel b,
          Some mixed_env = Some available /\
          kernel_name i = Some kernel /\
          Dict.get kernel available = Some b /\
          Dict.contains "setup" kept = b.
Proof.
  assert (Hinfra : Dict.get "infrastructure" mixed_section
                   = Some [("setup", entry "base" None)]) by reflexivity.
  assert (Hname : In "setup" (Dict.keys [("setup", entry "base" None)]))
    by (now left).
  assert (Hkind : Notebooks = Notebooks
                  \/ no_component atmosphere_only || false = true)
    by (now left).
  split; [exact Hinfra|]. split; [exact Hname|]. split; [exact Hkind|].
  exact (@infrastructure_selected Notebooks (Some mixed_env) mixed_section
           atmosphere_only false _ "setup" Hinfra Hname Hkind).
Defined.

(** C3 fails for scripts: with [--atmosphere] alone the script universe
    is built without the script listed under [infrastructure], every
    kernel being available, while the notebook universe of the same
    catalog has it. *)
Lemma script_infrastructure_not_selected :
  Dict.get "infrastructure" scenario_section
  = Some [("setup", entry "base" None)] /\
  build_universe Notebooks (Some [("base", true)]) scenario_section
                 atmosphere_only false
  = ([], inr (false, [("setup", entry "base" None);
                      ("plot_atm", entry "base" (Some (Dep_name "setup")))]))
  /\
  build_universe Scripts (Some [("base", true)]) scenario_section
                 atmosphere_only false
  = ([], inr (false, [("plot_atm", entry "base" (Some (Dep_name "setup")))])).
Proof. repeat split. Qed.

(** C8, as the code has it: the selected entry of a name is the one of
    the category written last among those that hold the name.  The
    categories are written in this order: for notebooks [infrastructure];
    then, when everything is selected, every category of the section in
    configuration order, [infrastructure] again at its place; otherwise the
    categories of the flagged components in the order atmosphere, ocean,
    land, seaice, landice.  For scripts the order is the same without the
    leading [infrastructure]. *)
Theorem last_write_wins :
  forall kind section fl all0 before category after k i,
    writes kind section fl all0 = before ++ category :: after ->
    well_formed category ->
    Dict.get k category = Some i ->
    (forall c, In c after -> Dict.get k c = None) ->
    exists ws all1 merged,
      select kind section fl all0 = (ws, inr (all1, merged)) /\
      Dict.get k merged = Some i.
Proof.
  intros kind section fl all0 before category after k i Hw Hwf Hget Hafter.
  assert (Hret : exists ws all1 merged,
             select kind section fl all0 = (ws, inr (all1, merged))).
  { destruct kind; simpl; [|apply select_scripts_returns].
    simpl in Hw. unfold notebook_writes in Hw.
    destruct (Dict.get "infrastructure" section) as [infra|] eqn:Hinfra.
    - eapply select_notebooks_returns. exact Hinfra.
    - destruct before; discriminate. }
  destruct Hret as [ws [all1 [merged Hsel]]].
  exists ws, all1, merged. split; [exact Hsel|].
  rewrite (@select_writes _ _ _ _ _ _ _ Hsel), get_update_from_all, Hw.
  now rewrite (@last_write_split _ _ before _ after Hwf Hget Hafter).
Qed.

(** C8 on a name bound by [atmosphere] and by [infrastructure]. *)
Lemma last_write_wins_witness :
  writes Notebooks collision_section no_flags false
  = [ [("index", entry "base" None)];
      [("index", entry "atm-kernel" None)] ]
    ++ [("index", entry "base" None)] :: [] /\
  well_formed [("index", entry "base" None)] /\
  Dict.get "index" [("index", entry "base" None)]
  = Some (entry "base" None) /\
  (forall c, In c (@nil (dict info)) -> Dict.get "index" c = None) /\
  exists ws all1 merged,
    select Notebooks collision_section no_flags false
    = (ws, inr (all1, merged)) /\
    Dict.get "index" merged = Some (entry "base" None).
Proof.
  assert (Hw : writes Notebooks collision_section no_flags false
               = [ [("index", entry "base" None)];
                   [("index", entry "atm-kernel" None)] ]
                 ++ [("index", entry "base" None)] :: []) by reflexivity.
  assert (Hwf : well_formed [("index", entry "base" None)]).
  { repeat constructor. simpl. tauto. }
  assert (Hget : Dict.get "index" [("index", entry "base" None)]
                 = Some (entry "base" None)) by reflexivity.
  assert (Hafter : forall c, In c (@nil (dict info)) ->
                             Dict.get "index" c = None).
  { intros c []. }
  split; [exact Hw|]. split; [exact Hwf|]. split; [exact Hget|].
  split; [exact Hafter|].
  exact (@last_write_wins Notebooks collision_section no_flags false
           _ _ _ "index" _ Hw Hwf Hget Hafter).
Defined.

(** C8 fails on the order: merged in the order infrastructure, then the
    remaining categories, the name would be bound to the entry of
    [atmosphere]; the notebooks selected bind it to the entry of
    [infrastructure], which is written again at its configured place. *)
Lemma infrastructure_written_again :
  last_write "index" (spec_merge_order collision_section)
  = Some (entry "atm-kernel" None) /\
  select_notebooks collision_section no_flags false
  = ([], inr (true, [("index", entry "base" None)])) /\
  (forall ws all1 merged,
      select_notebooks collision_section no_flags false
      = (ws, inr (all1, merged)) ->
      Dict.get "index" merged
      <> last_write "index" (spec_merge_order collision_section)).
Proof.
  split; [reflexivity|]. split; [reflexivity|].
  intros ws all1 merged H. inversion H; subst. discriminate.
Qed.

(** ** The task graph *)

Lemma mem_In s l : mem s l = true <-> In s l.
Proof.
  unfold mem. rewrite existsb_exists. split.
  - intros [x [Hin Heq]]. apply String.eqb_eq in Heq. now subst.
  - intros Hin. exists s. split; [exact Hin|apply String.eqb_refl].
Qed.

Lemma dag_build_unfold w :
  dag_build w
  = match obj_dag w with
    | None => (w, inl (UnboundLocalError "dag"))
    | Some g =>
        match assemble g with
        | inl e => (w, inl e)
        | inr batches => (with_executed batches w, inr tt)
        end
    end.
Proof.
  unfold dag_build, bind, read_dag.
  destruct (obj_dag w) as [g|]; [|reflexivity].
  destruct (assemble g); reflexivity.
Qed.

Lemma first_unresolved_Some supplied ts t d :
  In t ts -> In d (upstream t) -> ~ In d supplied ->
  exists t0 d0,
    In t0 ts /\ In d0 (upstream t0) /\ ~ In d0 supplied /\
    first_unresolved supplied ts = Some (task_name t0, d0).
Proof.
  induction ts as [|t1 ts IH]; simpl; [tauto|].
  intros Hin Hd Hmissing.
  destruct (find (fun d => negb (mem d supplied)) (upstream t1))
    as [d1|] eqn:Hfind.
  - apply find_some in Hfind. destruct Hfind as [Hd1 Hneg].
    exists t1, d1. repeat split; auto.
    intros Hs. apply mem_In in Hs. rewrite Hs in Hneg. discriminate.
  - destruct Hin as [->|Hin].
    + exfalso. pose proof (find_none _ _ Hfind d Hd) as Hnone.
      simpl in Hnone. apply negb_false_iff, mem_In in Hnone. tauto.
    + destruct (IH Hin Hd Hmissing) as [t0 [d0 [H0 [H1 [H2 H3]]]]].
      exists t0, d0. repeat split; auto.
Qed.



(** C4: when a task names as a dependency a task that is not among those
    supplied to the graph, building the graph raises
    [UnresolvedDependencyError] for such a task and its dependency, and
    leaves the world as it was: nothing is executed. *)
Theorem unresolved_dependency_fails :
  forall w g t d,
    obj_dag w = Some g ->
    In t (dag_tasks g) ->
    In d (upstream t) ->
    ~ In d (map task_name (dag_tasks g)) ->
    exists t0 d0,
      In t0 (dag_tasks g) /\ In d0 (upstream t0) /\
      ~ In d0 (map task_name (dag_tasks g)) /\
      dag_build w
      = (w, inl (UnresolvedDependencyError (task_name t0) d0)).
Proof.
  intros w g t d Hdag Hin Hd Hmissing.
  destruct (first_unresolved_Some _ _ _ _ Hin Hd Hmissing)
    as [t0 [d0 [H0 [H1 [H2 H3]]]]].
  exists t0, d0. repeat split; auto.
  rewrite dag_build_unfold, Hdag. unfold assemble. now rewrite H3.
Qed.







(** C4 on [plot_atm], which depends on a task nobody supplies. *)
Lemma unresolved_dependency_fails_witness :
  obj_dag (world_of dangling_tasks) = Some (graph_of dangling_tasks) /\
  In (task_of "plot_atm" (Some (Dep_name "missing_task")))
     (dag_tasks (graph_of dangling_tasks)) /\
  In "missing_task"
     (upstream (task_of "plot_atm" (Some (Dep_name "missing_task")))) /\
  ~ In "missing_task" (map task_name (dag_tasks (graph_of dangling_tasks))) /\
  exists t0 d0,
    In t0 (dag_tasks (graph_of dangling_tasks)) /\ In d0 (upstream t0) /\
    ~ In d0 (map task_name (dag_tasks (graph_of dangling_tasks))) /\
    dag_build (world_of dangling_tasks)
    = (world_of dangling_tasks,
       inl (UnresolvedDependencyError (task_name t0) d0)).
Proof.
  assert (Hdag : obj_dag (world_of dangling_tasks)
                 = Some (graph_of dangling_tasks)) by reflexivity.
  assert (Hin : In (task_of "plot_atm" (Some (Dep_name "missing_task")))
                   (dag_tasks (graph_of dangling_tasks)))
    by (right; now left).
  assert (Hd : In "missing_task"
                  (upstream (task_of "plot_atm"
                                     (Some (Dep_name "missing_task")))))
    by (now left).
  assert (Hmissing : ~ In "missing_task"
                       (map task_name (dag_tasks (graph_of dangling_tasks)))).
  { simpl. intros [H|[H|[]]]; discriminate H. }
  split; [exact Hdag|]. split; [exact Hin|]. split; [exact Hd|].
  split; [exact Hmissing|].
  exact (unresolved_dependency_fails (world_of dangling_tasks)
           (graph_of dangling_tasks) _ _ Hdag Hin Hd Hmissing).
Defined.






(** The two-task cycle is resolved, and building it raises
    [CyclicDependencyError]. *)
Example cyclic_tasks_build :
  resolved cyclic_tasks /\
  dag_build (world_of cyclic_tasks)
  = (world_of cyclic_tasks, inl CyclicDependencyError).
Proof.
  split; [|reflexivity].
  intros t d [<-|[<-|[]]] [<-|[]]; simpl; tauto.
Qed.

(** *** Order of execution *)

Lemma ready_monotone done extra t :
  ready done t = true -> ready (done ++ extra) t = true.
Proof.
  unfold ready. rewrite !forallb_forall. intros H d Hd.
  apply mem_In, in_or_app. left. now apply mem_In, H.
Qed.

Lemma respects_edges_ready now :
  forall done,
    Forall (fun t => ready done t = true) now -> respects_edges done now.
Proof.
  induction now as [|t now IH]; intros done H; simpl; [exact I|].
  inversion H as [|? ? Ht Hnow]; subst. split.
  - intros d Hd. unfold ready in Ht. rewrite forallb_forall in Ht.
    now apply mem_In, Ht.
  - apply IH. eapply Forall_impl; [|exact Hnow].
    intros t' Ht'. now apply ready_monotone.
Qed.

Lemma respects_edges_app a b :
  forall done,
    respects_edges done a ->
    respects_edges (done ++ map task_name a) b ->
    respects_edges done (a ++ b).
Proof.
  induction a as [|t a IH]; intros done Ha Hb; simpl in *.
  - now rewrite app_nil_r in Hb.
  - destruct Ha as [Ht Ha]. split; [exact Ht|].
    apply IH; [exact Ha|]. now rewrite <- app_assoc.
Qed.

Lemma filter_partition {A} (f : A -> bool) l :
  Permutation (filter f l ++ filter (fun x => negb (f x)) l) l.
Proof.
  induction l as [|x l IH]; simpl; [constructor|].
  destruct (f x); simpl.
  - now constructor.
  - eapply Permutation_trans; [apply Permutation_sym, Permutation_middle|].
    now constructor.
Qed.

(** The ready sets list every pending task once, each after the
    predecessors it names. *)
Lemma ready_sets_order fuel :
  forall pending done sets,
    ready_sets fuel pending done = Some sets ->
    exists order,
      Permutation order pending /\
      concat sets = map task_name order /\
      respects_edges done order.
Proof.
  induction fuel as [|fuel IH]; intros pending done sets H.
  - destruct pending; [|discriminate]. inversion H; subst.
    exists []. repeat split; constructor.
  - destruct pending as [|p pending].
    + inversion H; subst. exists []. repeat split; constructor.
    + cbn [ready_sets] in H.
      remember (p :: pending) as ps eqn:Eps. clear Eps p pending.
      destruct (filter (ready done) ps) as [|n now] eqn:Hnow; [discriminate|].
      rewrite <- Hnow in H.
      destruct (ready_sets fuel (filter (fun t => negb (ready done t)) ps)
                  (done ++ map task_name (filter (ready done) ps)))
        as [sets'|] eqn:Hrest; [|discriminate].
      inversion H; subst sets. clear H.
      destruct (IH _ _ _ Hrest) as [order' [Hperm [Hconcat Hresp]]].
      exists (filter (ready done) ps ++ order'). repeat split.
      * eapply Permutation_trans; [|apply (filter_partition (ready done))].
        now apply Permutation_app_head.
      * simpl. now rewrite Hconcat, map_app.
      * apply respects_edges_app; [|exact Hresp].
        apply respects_edges_ready, Forall_forall.
        intros t Ht. now apply filter_In in Ht.
Qed.

(** A graph with the serial executor, when it builds, runs every task
    once, alone, after the predecessors it names. *)
Lemma assemble_serial g batches :
  dag_executor g = Serial ->
  assemble g = inr batches ->
  exists order,
    Permutation order (dag_tasks g) /\
    batches = map (fun t => [task_name t]) order /\
    respects_edges [] order.
Proof.
  intros Hserial H. unfold assemble in H.
  destruct (first_unresolved (map task_name (dag_tasks g)) (dag_tasks g))
    as [[t d]|]; [discriminate|].
  destruct (ready_sets (length (dag_tasks g)) (dag_tasks g) [])
    as [sets|] eqn:Hsets; [|discriminate].
  inversion H; subst batches. clear H.
  destruct (ready_sets_order _ _ _ _ Hsets) as [order [Hperm [Hconcat Hresp]]].
  exists order. repeat split; [exact Hperm| |exact Hresp].
  rewrite Hserial. simpl. now rewrite Hconcat, map_map.
Qed.

(** With as much fuel as there are pending tasks, the loop gives up only
    when it is stuck: tasks remain and none of them is ready. *)
Lemma ready_sets_fuel fuel :
  forall pending done,
    length pending <= fuel ->
    ready_sets fuel pending done = None ->
    exists stuck done',
      stuck <> [] /\ incl stuck pending /\
      forall t, In t stuck -> ready done' t = false.
Proof.
  induction fuel as [|fuel IH]; intros pending done Hlen H.
  - destruct pending; [discriminate|]. simpl in Hlen. lia.
  - destruct pending as [|p pending]; [discriminate|].
    cbn [ready_sets] in H.
    remember (p :: pending) as ps eqn:Eps.
    destruct (filter (ready done) ps) as [|n now] eqn:Hnow.
    + exists ps, done. split; [subst ps; discriminate|].
      split; [apply incl_refl|].
      intros t Ht. destruct (ready done t) eqn:Hr; [|reflexivity].
      assert (Hin : In t (filter (ready done) ps))
        by (apply filter_In; now split).
      rewrite Hnow in Hin. destruct Hin.
    + rewrite <- Hnow in H.
      destruct (ready_sets fuel (filter (fun t => negb (ready done t)) ps)
                  (done ++ map task_name (filter (ready done) ps)))
        as [sets|] eqn:Hrest; [discriminate|].
      pose proof (Permutation_length (filter_partition (ready done) ps))
        as Hperm.
      rewrite length_app, Hnow in Hperm. simpl in Hperm.
      assert (Hless : length (filter (fun t => negb (ready done t)) ps)
                      <= fuel) by lia.
      destruct (IH _ _ Hless Hrest) as [stuck [done' [H1 [H2 H3]]]].
      exists stuck, done'. split; [exact H1|]. split; [|exact H3].
      intros t Ht. apply H2 in Ht. now apply filter_In in Ht.
Qed.

(** ** Reasoning about computations *)

Lemma after_bind {A B} (m : M A) (k : A -> M B) w Q :
  after m w (fun w' r =>
               match r with
               | inl e => Q w' (inl e)
               | inr a => after (k a) w' Q
               end) ->
  after (bind m k) w Q.
Proof.
  unfold after, bind. destruct (m w) as [w' [e|a]]; simpl; auto.
Qed.

Lemma after_weaken {A} (m : M A) w (Q Q' : world -> exn + A -> Prop) :
  after m w Q -> (forall w' r, Q w' r -> Q' w' r) -> after m w Q'.
Proof. unfold after. auto. Qed.

Lemma after_inv_bind {A B} (I : world -> Prop) (m : M A) (k : A -> M B) w
  (Q : world -> exn + B -> Prop) :
  after m w (fun w' _ => I w') ->
  (forall w' e, I w' -> Q w' (inl e)) ->
  (forall w' a, I w' -> after (k a) w' Q) ->
  after (bind m k) w Q.
Proof.
  intros Hm He Hk. apply after_bind. eapply after_weaken; [exact Hm|].
  intros w' [e|a] HI; auto.
Qed.

Lemma after_for_each {X} (I : world -> Prop) (xs : list X)
  (body : X -> M unit) :
  (forall x w, I w -> after (body x) w (fun w' _ => I w')) ->
  forall w, I w -> after (for_each xs body) w (fun w' _ => I w').
Proof.
  intros Hbody. induction xs as [|x xs IH]; intros w HI; simpl.
  - exact HI.
  - apply after_inv_bind with (I := I); auto.
Qed.

Lemma after_eq {A} (m : M A) w w' r (Q : world -> exn + A -> Prop) :
  after m w Q -> m w = (w', r) -> Q w' r.
Proof. unfold after. intros H E. now rewrite E in H. Qed.

(** ** From the creation of the graph to its build *)

Section GraphInvariant.
Variables (c : control) (v : pyval) (cat_path : option string)
          (gp : params_ref) (calls0 : list call).

Local Abbreviation Inv := (graph_inv c v cat_path gp calls0).

Lemma serial_forwarded_frame w w' :
  obj_control w' = obj_control w ->
  obj_fresh_params w' = obj_fresh_params w ->
  serial_forwarded gp v w -> serial_forwarded gp v w'.
Proof.
  intros Hc Hf [g [Hderef Hget]]. exists g. split; [|exact Hget].
  unfold deref in *. now rewrite Hc, Hf.
Qed.

Lemma graph_inv_frame w w' :
  calls w' = calls w ->
  obj_control w' = obj_control w ->
  obj_fresh_params w' = obj_fresh_params w ->
  obj_dag w' = obj_dag w ->
  executed w' = executed w ->
  Inv w -> Inv w'.
Proof.
  intros Hcalls Hc Hf Hd He [[H1 H2 H3] H4].
  split; [split|now rewrite He].
  - now rewrite Hcalls.
  - now rewrite Hc.
  - destruct H3 as [ts [Hdag [Hall Hser]]]. exists ts.
    rewrite Hd. repeat split; auto.
    intros Hex. eapply serial_forwarded_frame; eauto.
Qed.

Lemma emit_inv {A} (o : outcome A) w :
  Inv w -> after (emit o) w (fun w' _ => Inv w').
Proof.
  intros H. unfold after, emit. simpl. revert H. now apply graph_inv_frame.
Qed.

Lemma ret_inv {A} (a : A) w : Inv w -> after (ret a) w (fun w' _ => Inv w').
Proof. intros H. exact H. Qed.

Lemma read_control_inv w :
  Inv w -> after read_control w (fun w' _ => Inv w').
Proof.
  intros H. unfold after, read_control.
  now destruct (obj_control w).
Qed.

Lemma store_param_inv w :
  Inv w ->
  after (store_param gp "serial" v) w
        (fun w' r =>
           Inv w' /\ (forall u, r = inr u -> serial_forwarded gp v w')).
Proof.
  intros H. destruct H as [[H1 H2 H3] H4]. unfold after, store_param.
  destruct gp eqn:Egp.
  - simpl. split.
    + split; [|exact H4]. split; [exact H1|exact H2|].
      destruct H3 as [ts [Hdag [Hall Hser]]]. exists ts.
      repeat split; auto. intros _.
      exists (Dict.setitem "serial" v (obj_fresh_params w)).
      split; [reflexivity|]. now rewrite get_setitem.
    + intros _ _. exists (Dict.setitem "serial" v (obj_fresh_params w)).
      split; [reflexivity|]. now rewrite get_setitem.
  - destruct H2 as [c' [Hc Ht]]. rewrite Hc.
    destruct (global_params c') as [g'|] eqn:Hg'; simpl.
    + assert (Hfw : serial_forwarded Ref_control v
                      (with_control
                         (with_global_params (Dict.setitem "serial" v g') c')
                         w)).
      { exists (Dict.setitem "serial" v g'). split; [reflexivity|].
        now rewrite get_setitem. }
      split; [|intros _ _; exact Hfw].
      split; [|exact H4]. split; [exact H1| |].
      * eexists. split; [reflexivity|].
        destruct Ht as [T1 [T2 [T3 [T4 T5]]]].
        repeat split; simpl; auto.
        destruct T5 as [T5|[g [T5 T6]]].
        -- right. exists g'. split; [congruence|reflexivity].
        -- right. exists g. split; [exact T5|].
           rewrite Hg' in T6. inversion T6; subst g'.
           now rewrite setitem_idempotent.
      * destruct H3 as [ts [Hdag [Hall Hser]]]. exists ts.
        repeat split; auto.
    + split; [|intros u E; discriminate E].
      split; [|exact H4]. split; [exact H1| |exact H3]. exists c'. now split.
Qed.

Lemma add_task_inv t w :
  Inv w ->
  task_cat_path t = cat_path ->
  task_global_params t = gp ->
  (task_kind_of t = Notebook -> serial_forwarded gp v w) ->
  after (add_task t) w (fun w' _ => Inv w').
Proof.
  intros H Hcat Hgp Hkind. pose proof H as [[H1 H2 H3] H4].
  destruct H3 as [ts [Hdag [Hall Hser]]].
  unfold after, add_task, bind, read_dag, modify. rewrite Hdag. simpl.
  split; [|exact H4]. split; [exact H1|exact H2|].
  exists (ts ++ [t]). split; [reflexivity|]. split.
  - apply Forall_app. split; [exact Hall|]. constructor; [now split|constructor].
  - intros [t' [Hin Hnb]].
    apply (serial_forwarded_frame w); [reflexivity|reflexivity|].
    apply in_app_or in Hin. destruct Hin as [Hin|[->|[]]].
    + apply Hser. eauto.
    + now apply Hkind.
Qed.

Lemma dag_build_inv w :
  Inv w ->
  after dag_build w
        (fun w' _ =>
           graph_state c v cat_path gp calls0 w' /\ executed_serially w').
Proof.
  intros H. unfold after. rewrite dag_build_unfold.
  pose proof H as [[H1 H2 H3] Hex]. destruct H3 as [ts [Hdag [Hall Hser]]].
  rewrite Hdag.
  destruct (assemble {| dag_executor := Serial; dag_tasks := ts |})
    as [e|batches] eqn:Hasm; simpl.
  - split; [apply H|]. now left.
  - split.
    + split; [exact H1|exact H2|]. exists ts. repeat split; auto.
    + right.
      destruct (assemble_serial {| dag_executor := Serial; dag_tasks := ts |}
                  batches eq_refl Hasm) as [order [Hp [Hb Hr]]].
      eexists. exists order. split; [exact Hdag|].
      split; [exact Hp|]. split; [|exact Hr].
      cbn [executed with_executed]. rewrite Hex. exact Hb.
Qed.

Lemma organize_notebooks_inv fl all0 nbr od w :
  v = PyBool (serial fl) ->
  Inv w ->
  after (organize_notebooks fl all0 cat_path nbr od gp) w
        (fun w' _ => Inv w').
Proof.
  intros Hv H. unfold organize_notebooks.
  apply after_inv_bind with (I := Inv); [now apply read_control_inv|auto|].
  intros w1 c1 H1. destruct (compute_notebooks c1) as [section|];
    [|now apply ret_inv].
  apply after_inv_bind with (I := Inv); [now apply emit_inv|auto|].
  intros w2 selected H2.
  apply after_inv_bind with (I := Inv); [|auto|intros; now apply ret_inv].
  apply after_for_each; [|exact H2].
  intros item w3 H3. apply after_bind. rewrite <- Hv.
  eapply after_weaken; [apply store_param_inv; exact H3|].
  intros w4 [e|u] [H4 Hfw]; [exact H4|].
  destruct (info_dependency (snd item));
    (apply add_task_inv; [exact H4|reflexivity|reflexivity|]);
    intros _; now apply (Hfw u).
Qed.

Lemma organize_scripts_inv fl all0 nbr w :
  Inv w ->
  after (organize_scripts fl all0 cat_path nbr gp) w (fun w' _ => Inv w').
Proof.
  intros H. unfold organize_scripts.
  apply after_inv_bind with (I := Inv); [now apply read_control_inv|auto|].
  intros w1 c1 H1. destruct (compute_scripts c1) as [section|];
    [|now apply ret_inv].
  apply after_inv_bind with (I := Inv); [now apply emit_inv|auto|].
  intros w2 selected H2.
  apply after_inv_bind with (I := Inv); [|auto|intros; now apply ret_inv].
  apply after_for_each; [|exact H2].
  intros item w3 H3.
  destruct (info_dependency (snd item));
    (apply add_task_inv; [exact H3|reflexivity|reflexivity|]);
    intros Hkind; discriminate Hkind.
Qed.

End GraphInvariant.

Lemma control_touched_refl c v : control_touched c c v.
Proof. repeat split. now left. Qed.

Lemma organize_and_build_spec c fl cat_path nbr od gp w :
  obj_control w = Some c ->
  executed w = [] ->
  after (organize_and_build fl cat_path nbr od gp) w
        (fun w' _ =>
           graph_state c (PyBool (serial fl)) cat_path gp (calls w) w' /\
           executed_serially w').
Proof.
  intros Hc Hex. unfold organize_and_build. apply after_bind.
  unfold after at 1, modify. cbn [fst snd].
  set (w0 := with_dag {| dag_executor := Serial; dag_tasks := [] |} w).
  set (Inv := graph_inv c (PyBool (serial fl)) cat_path gp (calls w)).
  assert (H0 : Inv w0).
  { split; [split|exact Hex].
    - reflexivity.
    - exists c. split; [exact Hc|apply control_touched_refl].
    - exists []. split; [reflexivity|]. split; [constructor|].
      intros [t [[] _]]. }
  assert (Hexn : forall w' (e : exn),
             Inv w' ->
             graph_state c (PyBool (serial fl)) cat_path gp (calls w) w' /\
             executed_serially w').
  { intros w' _ [Hst He]. split; [exact Hst|now left]. }
  apply after_inv_bind with (I := Inv);
    [now apply organize_notebooks_inv|exact Hexn|].
  intros w1 all1 H1.
  apply after_inv_bind with (I := Inv);
    [now apply organize_scripts_inv|exact Hexn|].
  intros w2 _ H2. now apply dag_build_inv.
Qed.

(** ** Before the graph is created *)

Section Prefix.
Variable get_control_dict : string -> exn + control.
Variable realpath : string -> string.
Variable expanduser : string -> string.
Variable c : control.

Lemma external_loaded x w :
  loaded c w -> after (external x) w (fun w' _ => loaded c w').
Proof. intros H. exact H. Qed.

Lemma subscript_loaded {A} key (o : option A) w :
  loaded c w -> after (subscript key o) w (fun w' _ => loaded c w').
Proof. intros H. destruct o; exact H. Qed.

Lemma control_data_sources_loaded w :
  loaded c w -> after control_data_sources w (fun w' _ => loaded c w').
Proof.
  intros H. unfold control_data_sources.
  apply after_inv_bind with (I := loaded c); auto.
  - unfold after, read_control. now destruct (obj_control w).
  - intros w' c' H'. now apply subscript_loaded.
Qed.

Lemma manage_catalog_loaded temp w :
  loaded c w ->
  after (manage_catalog realpath expanduser temp) w
        (fun w' _ => loaded c w').
Proof.
  intros H. unfold manage_catalog.
  apply after_inv_bind with (I := loaded c);
    [now apply control_data_sources_loaded|auto|].
  intros w1 ds H1. destruct (path_to_cat_json ds) as [p|]; [|exact H1].
  apply after_inv_bind with (I := loaded c);
    [now apply external_loaded|auto|].
  intros w2 _ H2.
  apply after_inv_bind with (I := loaded c);
    [now apply control_data_sources_loaded|auto|].
  intros w3 ds' H3. destruct (subset ds') as [kwargs|]; [|exact H3].
  apply after_inv_bind with (I := loaded c);
    [now apply external_loaded|auto|].
  intros w4 _ H4.
  apply after_inv_bind with (I := loaded c);
    [now apply external_loaded|auto|].
  intros w5 _ H5. exact H5.
Qed.

Lemma manage_global_params_loaded w :
  loaded c w ->
  after manage_global_params w
        (fun w' r => loaded c w' /\ r = inr (params_object c)).
Proof.
  intros [Hc [Hd He]].
  unfold after, manage_global_params, bind, modify, read_control.
  cbn [obj_control with_fresh_params]. rewrite Hc. unfold params_object.
  destruct (global_params c); (split; [now repeat split|reflexivity]).
Qed.

End Prefix.

Lemma load_control_spec get_control_dict config_path w :
  after (load_control get_control_dict config_path) w
        (fun w' r =>
           match get_control_dict config_path with
           | inl e =>
               r = inl e /\
               w' = with_call (Call_get_control_dict config_path) w
           | inr c =>
               r = inr tt /\
               w' = with_control c
                      (with_call (Call_get_control_dict config_path) w)
           end).
Proof.
  unfold after, load_control, bind, external, modify, raise.
  cbn [fst snd]. destruct (get_control_dict config_path); now split.
Qed.

(** Every run ends in one of the three ways of [run_post]. *)
Lemma run_spec get_control_dict realpath expanduser config_path fl :
  after (run get_control_dict realpath expanduser config_path fl)
        initial_world (run_post get_control_dict config_path fl).
Proof.
  unfold run. apply after_bind.
  destruct (time_series fl) eqn:Hts.
  - left. repeat split. left. exact Hts.
  - unfold after at 1, ret. cbn [fst snd].
    unfold run_diagnostics. apply after_bind.
    eapply after_weaken; [apply load_control_spec|].
    intros w1 r Hload. cbv beta in Hload.
    destruct (get_control_dict config_path) as [e|c] eqn:Hget;
      destruct Hload as [-> ->].
    + left. repeat split. right. eauto.
    + assert (H1 : loaded c
                     (with_control c
                        (with_call (Call_get_control_dict config_path)
                                   initial_world))) by (repeat split).
      assert (Hexn : forall w' (e : exn),
                 loaded c w' ->
                 run_post get_control_dict config_path fl w' (inl e)).
      { intros w' e [Hc [Hd He]]. right. left. exists c.
        rewrite Hget. now repeat split. }
      revert H1.
      generalize (with_control c
                    (with_call (Call_get_control_dict config_path)
                               initial_world)).
      intros w1 H1.
      apply after_inv_bind with (I := loaded c);
        [now apply external_loaded|exact Hexn|].
      intros w2 _ H2.
      apply after_inv_bind with (I := loaded c);
        [now apply control_data_sources_loaded|exact Hexn|].
      intros w3 ds3 H3.
      apply after_inv_bind with (I := loaded c);
        [now apply subscript_loaded|exact Hexn|].
      intros w4 rd H4.
      apply after_inv_bind with (I := loaded c);
        [now apply control_data_sources_loaded|exact Hexn|].
      intros w5 ds5 H5.
      apply after_inv_bind with (I := loaded c);
        [now apply subscript_loaded|exact Hexn|].
      intros w6 sn H6.
      apply after_inv_bind with (I := loaded c);
        [now apply control_data_sources_loaded|exact Hexn|].
      intros w7 ds7 H7.
      apply after_inv_bind with (I := loaded c);
        [now apply subscript_loaded|exact Hexn|].
      intros w8 nbr H8.
      apply after_inv_bind with (I := loaded c);
        [now apply manage_catalog_loaded|exact Hexn|].
      intros w9 cat_path H9.
      apply after_bind.
      eapply after_weaken; [apply manage_global_params_loaded; exact H9|].
      intros w10 r [H10 ->]. destruct H10 as [Hc [Hd He]].
      eapply after_weaken; [apply organize_and_build_spec; eassumption|].
      intros w' r [Hst Hser]. right. right.
      exists c, cat_path, (calls w10).
      split; [exact Hget|]. split; [exact Hts|]. split; [exact Hst|exact Hser].
Qed.

(** ** The name of the catalog subset *)

Lemma split_nonempty c s : split c s <> [].
Proof.
  destruct s as [|a s]; simpl; [discriminate|].
  destruct (Ascii.eqb a c); [discriminate|].
  destruct (split c s); discriminate.
Qed.

Lemma split_no_separator c s : has_char c s = false -> split c s = [s].
Proof.
  induction s as [|a s IH]; simpl; [reflexivity|].
  intros H. apply orb_false_iff in H. destruct H as [Ha Hs].
  rewrite Ha, (IH Hs). reflexivity.
Qed.

(** [(a + c + b).split(c) == a.split(c) + b.split(c)] *)
Lemma split_append c a b :
  split c (a ++ String c b) = split c a ++ split c b.
Proof.
  induction a as [|x a IH]; simpl.
  - now rewrite Ascii.eqb_refl.
  - destruct (Ascii.eqb x c).
    + now rewrite IH.
    + rewrite IH. pose proof (split_nonempty c a) as Hne.
      destruct (split c a); [congruence|reflexivity].
Qed.

Lemma last_append {A} (l : list A) x d : last (l ++ [x]) d = x.
Proof.
  induction l as [|y l IH]; [reflexivity|].
  simpl. destruct (l ++ [x]) eqn:E; [destruct l; discriminate|exact IH].
Qed.

(** The last component of a path. *)
Lemma last_component folder base :
  has_char "/" base = false ->
  last (split "/" (folder ++ String "/" base)) EmptyString = base.
Proof.
  intros H. rewrite split_append, (split_no_separator _ _ H).
  apply last_append.
Qed.

(** A file name up to its first dot. *)
Lemma first_piece stem ext :
  has_char "." stem = false ->
  ext = EmptyString \/ (exists rest, ext = String "." rest) ->
  hd EmptyString (split "." (stem ++ ext)) = stem.
Proof.
  intros H [->|[rest ->]].
  - assert (E : (stem ++ EmptyString)%string = stem).
    { clear H. induction stem as [|a s IH]; simpl; congruence. }
    rewrite E, (split_no_separator _ _ H). reflexivity.
  - rewrite split_append, (split_no_separator _ _ H). reflexivity.
Qed.

Lemma append_associative (a b c : string) :
  ((a ++ b) ++ c)%string = (a ++ b ++ c)%string.
Proof. induction a as [|x a IH]; simpl; congruence. Qed.

(** ** Running up to the creation of the graph *)

Lemma bind_returns {A B} (m : M A) (k : A -> M B) w w' a :
  m w = (w', inr a) -> bind m k w = k a w'.
Proof. unfold bind. now intros ->. Qed.

Lemma control_data_sources_returns w c ds :
  obj_control w = Some c ->
  ctl_data_sources c = Some ds ->
  control_data_sources w = (w, inr ds).
Proof.
  intros Hc Hds. unfold control_data_sources, bind, read_control, subscript.
  now rewrite Hc, Hds.
Qed.

Lemma manage_catalog_subset realpath expanduser temp w c ds p kwargs :
  obj_control w = Some c ->
  ctl_data_sources c = Some ds ->
  path_to_cat_json ds = Some p ->
  subset ds = Some kwargs ->
  manage_catalog realpath expanduser temp w
  = (with_call
       (Call_serialize temp
          (hd EmptyString (split "." (last (split "/" (realpath (expanduser p))) EmptyString))
              ++ "_subset") "file")
       (with_call (Call_search kwargs)
          (with_call (Call_open_esm_datastore (realpath (expanduser p))) w)),
     inr (Some (temp ++ "/"
                  ++ (hd EmptyString (split "."
                               (last (split "/" (realpath (expanduser p))) EmptyString))
                        ++ "_subset")
                  ++ ".json")%string)).
Proof.
  intros Hc Hds Hp Hsub. unfold manage_catalog.
  erewrite bind_returns
    by (eapply control_data_sources_returns; eassumption).
  rewrite Hp.
  erewrite bind_returns by (unfold external, modify; reflexivity).
  erewrite bind_returns
    by (eapply control_data_sources_returns; eassumption).
  rewrite Hsub. reflexivity.
Qed.

Lemma manage_global_params_returns w c :
  obj_control w = Some c ->
  manage_global_params w = (with_fresh_params [] w, inr (params_object c)).
Proof.
  intros Hc. unfold manage_global_params, bind, modify, read_control.
  cbn [obj_control with_fresh_params]. rewrite Hc. unfold params_object.
  now destruct (global_params c).
Qed.

Lemma load_control_returns get_control_dict config_path w c :
  get_control_dict config_path = inr c ->
  load_control get_control_dict config_path w
  = (with_control c (with_call (Call_get_control_dict config_path) w),
     inr tt).
Proof.
  intros H. unfold load_control, bind, external, modify. now rewrite H.
Qed.

(** ** The command as a whole *)

(** C10: with [--time-series] the command does nothing but set
    [sys.tracebacklimit] to 0, so that no traceback is printed, and raise
    [NotImplementedError]: no external call is made, so the configuration
    is not loaded, no graph is created and nothing is executed. *)
Theorem time_series_aborts :
  forall get_control_dict realpath expanduser config_path fl w,
    time_series fl = true ->
    run get_control_dict realpath expanduser config_path fl w
    = (with_tracebacklimit 0 w,
       inl (NotImplementedError "--time-series option not implemented yet")).
Proof.
  intros get_control_dict realpath expanduser config_path fl w Hts.
  unfold run. rewrite Hts. reflexivity.
Qed.

(** C10 on a run with [--time-series] alone. *)
Lemma time_series_aborts_witness :
  time_series time_series_only = true /\
  run scenario_loader same_path same_path "config.yml" time_series_only
      initial_world
  = (with_tracebacklimit 0 initial_world,
     inl (NotImplementedError "--time-series option not implemented yet")).
Proof.
  split; [reflexivity|].
  apply (time_series_aborts scenario_loader same_path same_path "config.yml"
                            time_series_only initial_world).
  reflexivity.
Defined.


(** C7, as the code has it: a run leaves the loaded control structure as
    it is but for its global parameters, where the key [serial] may have
    been set to the value of [--serial]; and every task is handed the same
    global-parameters object, which is [control['global_params']] itself
    when the configuration has one. *)
Theorem control_touched_by_serial_only :
  forall get_control_dict realpath expanduser config_path fl c w' r,
    get_control_dict config_path = inr c ->
    time_series fl = false ->
    run get_control_dict realpath expanduser config_path fl initial_world
    = (w', r) ->
    exists c',
      obj_control w' = Some c' /\
      control_touched c c' (PyBool (serial fl)) /\
      forall g t,
        obj_dag w' = Some g -> In t (dag_tasks g) ->
        task_global_params t = params_object c.
Proof.
  intros get_control_dict realpath expanduser config_path fl c w' r
         Hload Hts Hrun.
  pose proof (after_eq _ _ _ _ _
                (run_spec get_control_dict realpath expanduser config_path fl)
                Hrun) as Hpost.
  destruct Hpost as [[_ [_ [_ [Habs|[e Habs]]]]]
                    |[[c0 [Hc0 [_ [Hd [_ Hctl]]]]]
                     |[c0 [cat_path [calls0 [Hc0 [_ [Hst _]]]]]]]];
    try congruence.
  - assert (c0 = c) by congruence. subst c0.
    exists c. split; [exact Hctl|]. split; [apply control_touched_refl|].
    intros g t Hg. congruence.
  - assert (c0 = c) by congruence. subst c0.
    destruct Hst as [_ [c' [Hc' Ht]] [ts [Hdag [Hall _]]]].
    exists c'. split; [exact Hc'|]. split; [exact Ht|].
    intros g t Hg Hin. rewrite Hdag in Hg. inversion Hg; subst g.
    rewrite Forall_forall in Hall. now destruct (Hall t Hin).
Qed.

(** C7 on a run of the scenario without options. *)
Lemma control_touched_by_serial_only_witness :
  scenario_loader "config.yml" = inr scenario_control /\
  time_series no_flags = false /\
  run scenario_loader same_path same_path "config.yml" no_flags initial_world
  = (fst (run scenario_loader same_path same_path "config.yml" no_flags
              initial_world), inr tt) /\
  exists c',
    obj_control (fst (run scenario_loader same_path same_path "config.yml"
                          no_flags initial_world)) = Some c' /\
    control_touched scenario_control c' (PyBool (serial no_flags)) /\
    forall g t,
      obj_dag (fst (run scenario_loader same_path same_path "config.yml"
                        no_flags initial_world)) = Some g ->
      In t (dag_tasks g) ->
      task_global_params t = params_object scenario_control.
Proof.
  assert (Hload : scenario_loader "config.yml" = inr scenario_control)
    by reflexivity.
  assert (Hts : time_series no_flags = false) by reflexivity.
  assert (Hrun : run scenario_loader same_path same_path "config.yml"
                     no_flags initial_world
                 = (fst (run scenario_loader same_path same_path "config.yml"
                             no_flags initial_world), inr tt))
    by (vm_compute; reflexivity).
  split; [exact Hload|]. split; [exact Hts|]. split; [exact Hrun|].
  exact (control_touched_by_serial_only scenario_loader same_path same_path
           "config.yml" no_flags scenario_control _ _ Hload Hts Hrun).
Defined.

(** C7 fails on the scenario: the run changes [control['global_params']]
    and hands that very object to both tasks. *)
Lemma control_mutated_by_run :
  global_params scenario_control = Some [("lc_kwargs", PyOther "{}")] /\
  option_map global_params
    (obj_control (fst (run scenario_loader same_path same_path "config.yml"
                           no_flags initial_world)))
  = Some (Some [("lc_kwargs", PyOther "{}"); ("serial", PyBool false)]) /\
  obj_control (fst (run scenario_loader same_path same_path "config.yml"
                        no_flags initial_world))
  <> Some scenario_control /\
  option_map (fun g => map task_global_params (dag_tasks g))
    (obj_dag (fst (run scenario_loader same_path same_path "config.yml"
                       no_flags initial_world)))
  = Some [Ref_control; Ref_control].
Proof.
  repeat split. vm_compute. discriminate.
Qed.

(** ** The scenarios of the specification *)

(** Every kernel available and no option given: both notebooks are
    selected and run, [setup] before [plot_atm]. *)
Example scenario_runs :
  universe_names (build_universe Notebooks (Some [("base", true)])
                                 scenario_section no_flags false)
  = Some ["setup"; "plot_atm"] /\
  snd (run scenario_loader same_path same_path "config.yml" no_flags
           initial_world) = inr tt /\
  executed (fst (run scenario_loader same_path same_path "config.yml"
                     no_flags initial_world))
  = [["setup"]; ["plot_atm"]].
Proof. repeat split. Qed.

(** The kernel unavailable: both notebooks are dropped with a warning
    each, and the run succeeds with nothing to execute. *)
Example scenario_unavailable :
  build_universe Notebooks (Some [("base", false)]) scenario_section
                 no_flags false
  = ([nb_environment_warning "base" "setup";
      nb_environment_warning "base" "plot_atm"], inr (true, [])) /\
  (let w' := fst (run (fun _ => inr (control_with scenario_data_sources None
                                       (Some [("base", false)])
                                       (Some scenario_section) None))
                      same_path same_path "config.yml" no_flags
                      initial_world) in
   length (warnings w') = 2 /\ executed w' = [] /\
   option_map dag_tasks (obj_dag w') = Some []).
Proof. repeat split. Qed.

(** [plot_atm] depending on a task that does not exist: the run raises
    [UnresolvedDependencyError] and executes nothing. *)
Example scenario_missing_dependency :
  let section :=
    [ ("infrastructure", [("setup", entry "base" None)]);
      ("atmosphere",
       [("plot_atm", entry "base" (Some (Dep_name "missing_task")))]) ] in
  let outcome :=
    run (fun _ => inr (control_with scenario_data_sources None
                         (Some [("base", true)]) (Some section) None))
        same_path same_path "config.yml" no_flags initial_world in
  snd outcome = inl (UnresolvedDependencyError "plot_atm" "missing_task") /\
  executed (fst outcome) = [].
Proof. repeat split. Qed.

(** * Further properties *)

(** ** Selection *)

Lemma select_components_warnings what section options all_nbs :
  fst (select_components what section options all_nbs)
  = map (missing_component_warning what)
        (absent_components section options).
Proof.
  unfold absent_components. revert all_nbs.
  induction options as [|[comp_name comp_bool] options IH]; intros all_nbs.
  - reflexivity.
  - cbn [select_components filter fst snd]. unfold Dict.contains.
    destruct comp_bool; cbn [andb]; [|apply IH].
    destruct (Dict.get comp_name section) as [category|]; cbn [negb].
    + apply IH.
    + specialize (IH all_nbs).
      destruct (select_components what section options all_nbs) as [ws r].
      cbn [fst map] in *. now rewrite IH.
Qed.

(** The warnings of the selection: none when everything is selected;
    otherwise one for each flagged component the section has no category
    for, in the order atmosphere, ocean, land, seaice, landice. *)
Theorem missing_component_warnings :
  forall kind section fl all0 ws all1 merged,
    select kind section fl all0 = (ws, inr (all1, merged)) ->
    ws = if no_component fl || all0 then []
         else map (missing_component_warning (kind_noun kind))
                  (absent_components section
                                     (Dict.items (component_options fl))).
Proof.
  intros kind section fl all0 ws all1 merged H.
  destruct kind; simpl in H; unfold select_notebooks, select_scripts in H.
  - destruct (Dict.get "infrastructure" section) as [infra|]; [|discriminate].
    destruct (no_component fl); cbv beta iota zeta delta [orb] in *.
    + now inversion H.
    + destruct all0; [now inversion H|].
      pose proof (select_components_warnings "notebooks" section
                    (Dict.items (component_options fl))
                    (update_from infra [])) as Hw.
      destruct (select_components "notebooks" section
                  (Dict.items (component_options fl)) (update_from infra []))
        as [ws0 r]. inversion H; subst. exact Hw.
  - destruct (no_component fl); cbv beta iota zeta delta [orb] in *.
    + now inversion H.
    + destruct all0; [now inversion H|].
      pose proof (select_components_warnings "scripts" section
                    (Dict.items (component_options fl)) []) as Hw.
      destruct (select_components "scripts" section
                  (Dict.items (component_options fl)) [])
        as [ws0 r]. inversion H; subst. exact Hw.
Qed.

Lemma missing_component_warnings_witness :
  select Scripts scenario_section five_flags false
  = ([missing_component_warning "scripts" "ocean";
      missing_component_warning "scripts" "land";
      missing_component_warning "scripts" "seaice";
      missing_component_warning "scripts" "landice"],
     inr (false, [("plot_atm", entry "base" (Some (Dep_name "setup")))])) /\
  [missing_component_warning "scripts" "ocean";
   missing_component_warning "scripts" "land";
   missing_component_warning "scripts" "seaice";
   missing_component_warning "scripts" "landice"]
  = if no_component five_flags || false then []
    else map (missing_component_warning (kind_noun Scripts))
             (absent_components scenario_section
                                (Dict.items (component_options five_flags))).
Proof.
  assert (H : select Scripts scenario_section five_flags false
              = ([missing_component_warning "scripts" "ocean";
                  missing_component_warning "scripts" "land";
                  missing_component_warning "scripts" "seaice";
                  missing_component_warning "scripts" "landice"],
                 inr (false,
                      [("plot_atm", entry "base" (Some (Dep_name "setup")))])))
    by reflexivity.
  split; [exact H|].
  exact (missing_component_warnings Scripts scenario_section five_flags false
                                    _ _ _ H).
Defined.

Lemma last_write_None k categories :
  last_write k categories = None <->
  forall c, In c categories -> ~ In k (Dict.keys c).
Proof.
  induction categories as [|c categories IH]; simpl.
  - split; [intros _ c []|reflexivity].
  - destruct (last_write k categories) as [i|].
    + split; [discriminate|]. intros H. exfalso.
      assert (Hsome : Some i = None) by (apply IH; intros; apply H; now right).
      discriminate Hsome.
    + rewrite get_None_keys, keys_rev, <- in_rev. split.
      * intros Hc c' [<-|Hin]; [exact Hc|]. now apply IH.
      * intros H. apply H. now left.
Qed.

Lemma last_write_Some k categories i :
  last_write k categories = Some i ->
  exists c, In c categories /\ In k (Dict.keys c).
Proof.
  revert i. induction categories as [|c categories IH]; intros i; simpl;
    [discriminate|].
  destruct (last_write k categories) as [i'|].
  - intros _. destruct (IH i' eq_refl) as [c' [Hin Hk]]. exists c'. auto.
  - intros Hget. exists c. split; [now left|].
    apply get_Some_In in Hget. apply in_rev in Hget.
    change k with (fst (k, i)). now apply in_map.
Qed.

Lemma keys_update_from_all k categories all_nbs :
  In k (Dict.keys (update_from_all categories all_nbs)) <->
  In k (Dict.keys all_nbs) \/
  exists c, In c categories /\ In k (Dict.keys c).
Proof.
  rewrite <- !contains_keys. unfold Dict.contains.
  rewrite get_update_from_all.
  destruct (last_write k categories) as [i|] eqn:Hlast.
  - split; [intros _|reflexivity]. right.
    eapply last_write_Some. exact Hlast.
  - pose proof (proj1 (last_write_None _ _) Hlast) as Hnone.
    destruct (Dict.get k all_nbs) eqn:Hget.
    + split; [intros _; left; reflexivity|reflexivity].
    + split; [discriminate|]. intros [H|[c [Hin Hk]]]; [discriminate|].
      exfalso. eapply Hnone; eauto.
Qed.

Lemma In_flagged_categories section options category :
  In category (flagged_categories section options) <->
  exists comp, In (comp, true) options
               /\ Dict.get comp section = Some category.
Proof.
  induction options as [|[comp_name comp_bool] options IH]; simpl.
  - split; [tauto|intros [comp [[] _]]].
  - destruct comp_bool.
    + destruct (Dict.get comp_name section) as [cat|] eqn:Hget; simpl.
      * rewrite IH. split.
        -- intros [<-|[comp [Hin Hc]]]; [exists comp_name; auto|].
           exists comp. auto.
        -- intros [comp [[E|Hin] Hc]].
           ++ inversion E; subst. left. congruence.
           ++ right. eauto.
      * rewrite IH. split.
        -- intros [comp [Hin Hc]]. exists comp. auto.
        -- intros [comp [[E|Hin] Hc]]; [inversion E; subst; congruence|eauto].
    + rewrite IH. split.
      * intros [comp [Hin Hc]]. exists comp. auto.
      * intros [comp [[E|Hin] Hc]]; [discriminate E|eauto].
Qed.

Lemma In_values section (category : dict info) :
  In category (Dict.values section) <->
  exists name, In (name, category) section.
Proof.
  unfold Dict.values. rewrite in_map_iff. split.
  - intros [[name c] [E Hin]]. simpl in E. subst. eauto.
  - intros [name Hin]. exists (name, category). auto.
Qed.

Lemma writes_in_section kind section fl all0 category :
  In category (writes kind section fl all0) ->
  In category (Dict.values section).
Proof.
  assert (Hflagged : forall options,
             In category (flagged_categories section options) ->
             In category (Dict.values section)).
  { intros options H. apply In_flagged_categories in H.
    destruct H as [comp [_ Hget]]. apply In_values. exists comp.
    now apply get_Some_In. }
  destruct kind; simpl; unfold notebook_writes, script_writes.
  - destruct (Dict.get "infrastructure" section) as [infra|] eqn:Hinfra;
      [|intros []].
    intros [<-|H].
    + apply In_values. exists "infrastructure". now apply get_Some_In.
    + destruct (no_component fl || all0); [exact H|eauto].
  - destruct (no_component fl || all0); [tauto|eauto].
Qed.

Lemma In_update_from_all item categories all_nbs :
  In item (update_from_all categories all_nbs) ->
  In item all_nbs \/ exists c, In c categories /\ In item c.
Proof.
  unfold update_from_all. revert all_nbs.
  induction categories as [|c categories IH]; intros all_nbs H; simpl in H.
  - now left.
  - apply IH in H. destruct H as [H|[c' [Hin H]]].
    + apply In_update_from in H. destruct H as [H|H]; [|now left].
      right. exists c. split; [now left|exact H].
    + right. exists c'. split; [now right|exact H].
Qed.

(** When everything is selected ([--all], or no component option), the
    names selected are exactly the names of the tasks of all the
    categories of the section. *)
Theorem select_all_names :
  forall kind section fl all0 ws all1 merged k,
    no_component fl || all0 = true ->
    select kind section fl all0 = (ws, inr (all1, merged)) ->
    (In k (Dict.keys merged) <->
     exists name category,
       In (name, category) section /\ In k (Dict.keys category)).
Proof.
  intros kind section fl all0 ws all1 merged k Hall Hsel.
  rewrite (select_writes _ _ _ _ _ _ _ Hsel), keys_update_from_all.
  split.
  - intros [[]|[c [Hin Hk]]].
    apply writes_in_section, In_values in Hin. destruct Hin as [name Hin].
    exists name, c. auto.
  - intros [name [category [Hin Hk]]]. right. exists category.
    split; [|exact Hk].
    assert (Hv : In category (Dict.values section))
      by (apply In_values; eauto).
    destruct kind; cbn [writes]; unfold notebook_writes, script_writes;
      rewrite Hall; [|exact Hv].
    cbn [select] in Hsel. unfold select_notebooks in Hsel.
    destruct (Dict.get "infrastructure" section); [now right|discriminate].
Qed.

Lemma select_all_names_witness :
  no_component no_flags || false = true /\
  select Scripts scenario_section no_flags false
  = ([], inr (true, [("setup", entry "base" None);
                     ("plot_atm", entry "base" (Some (Dep_name "setup")))]))
  /\
  (In "plot_atm"
      (Dict.keys [("setup", entry "base" None);
                  ("plot_atm", entry "base" (Some (Dep_name "setup")))]) <->
   exists name category,
     In (name, category) scenario_section
     /\ In "plot_atm" (Dict.keys category)).
Proof.
  assert (Hall : no_component no_flags || false = true) by reflexivity.
  assert (Hsel : select Scripts scenario_section no_flags false
                 = ([], inr (true,
                      [("setup", entry "base" None);
                       ("plot_atm", entry "base" (Some (Dep_name "setup")))])))
    by reflexivity.
  split; [exact Hall|]. split; [exact Hsel|].
  exact (select_all_names Scripts scenario_section no_flags false _ _ _
                          "plot_atm" Hall Hsel).
Defined.

(** When some component option is given and [--all] is not, the names
    selected are exactly those of the categories of the flagged components
    and, for notebooks only, those of [infrastructure]. *)
Theorem flagged_names :
  forall kind section fl all0 ws all1 merged k,
    no_component fl || all0 = false ->
    select kind section fl all0 = (ws, inr (all1, merged)) ->
    (In k (Dict.keys merged) <->
     (kind = Notebooks /\
      exists infrastructure,
        Dict.get "infrastructure" section = Some infrastructure /\
        In k (Dict.keys infrastructure)) \/
     exists comp category,
       In (comp, true) (Dict.items (component_options fl)) /\
       Dict.get comp section = Some category /\
       In k (Dict.keys category)).
Proof.
  intros kind section fl all0 ws all1 merged k Hall Hsel.
  rewrite (select_writes _ _ _ _ _ _ _ Hsel), keys_update_from_all.
  destruct kind; cbn [writes]; unfold notebook_writes, script_writes;
    rewrite Hall.
  - cbn [select] in Hsel. unfold select_notebooks in Hsel.
    destruct (Dict.get "infrastructure" section) as [infra|];
      [|discriminate].
    split.
    + intros [[]|[c [[<-|Hin] Hk]]].
      * left. split; [reflexivity|]. eauto.
      * right. apply In_flagged_categories in Hin.
        destruct Hin as [comp [Hin Hget]]. exists comp, c. auto.
    + intros [[_ [infra' [E Hk]]]|[comp [category [Hin [Hget Hk]]]]].
      * inversion E; subst infra'. right. exists infra. split; [now left|auto].
      * right. exists category. split; [|exact Hk]. right.
        apply In_flagged_categories. eauto.
  - split.
    + intros [[]|[c [Hin Hk]]]. right.
      apply In_flagged_categories in Hin.
      destruct Hin as [comp [Hin Hget]]. exists comp, c. auto.
    + intros [[E _]|[comp [category [Hin [Hget Hk]]]]]; [discriminate E|].
      right. exists category. split; [|exact Hk].
      apply In_flagged_categories. eauto.
Qed.

Lemma flagged_names_witness :
  no_component atmosphere_only || false = false /\
  select Scripts scenario_section atmosphere_only false
  = ([], inr (false,
              [("plot_atm", entry "base" (Some (Dep_name "setup")))])) /\
  (In "setup"
      (Dict.keys [("plot_atm", entry "base" (Some (Dep_name "setup")))]) <->
   (Scripts = Notebooks /\
    exists infrastructure,
      Dict.get "infrastructure" scenario_section = Some infrastructure /\
      In "setup" (Dict.keys infrastructure)) \/
   exists comp category,
     In (comp, true) (Dict.items (component_options atmosphere_only)) /\
     Dict.get comp scenario_section = Some category /\
     In "setup" (Dict.keys category)).
Proof.
  assert (Hall : no_component atmosphere_only || false = false)
    by reflexivity.
  assert (Hsel : select Scripts scenario_section atmosphere_only false
                 = ([], inr (false,
                      [("plot_atm", entry "base" (Some (Dep_name "setup")))])))
    by reflexivity.
  split; [exact Hall|]. split; [exact Hsel|].
  exact (flagged_names Scripts scenario_section atmosphere_only false _ _ _
                       "setup" Hall Hsel).
Defined.

(** ** What a built universe holds *)

Lemma build_universe_returns kind env section fl all0 ws all1 kept :
  build_universe kind env section fl all0 = (ws, inr (all1, kept)) ->
  exists ws0 ws' merged,
    select kind section fl all0 = (ws0, inr (all1, merged)) /\
    ws = ws0 ++ ws' /\
    ((merged = [] /\ kept = [] /\ ws' = []) \/
     exists available,
       env = Some available /\
       Forall (kernel_known available) merged /\
       kept = filter (kernel_available available) merged /\
       ws' = map (environment_warning (warning_message kind))
                 (filter (kernel_unavailable available) merged)).
Proof.
  intros H. rewrite build_universe_unfold in H.
  destruct (select kind section fl all0) as [ws0 [e|[all1' merged]]] eqn:Hsel;
    [discriminate|].
  destruct (check_environments (warning_message kind) env
              (Dict.items (Dict.copy merged)) merged)
    as [ws' [e|kept']] eqn:Hcheck; [discriminate|].
  inversion H; subst ws all1' kept'. clear H.
  exists ws0, ws', merged. split; [reflexivity|]. split; [reflexivity|].
  destruct (check_environments_returns _ _ _ _ _ _ Hcheck)
    as [Hempty|[available [-> Hknown]]].
  - left. unfold Dict.items, Dict.copy in Hempty. subst merged.
    simpl in Hcheck. inversion Hcheck. auto.
  - right. exists available. unfold Dict.items, Dict.copy in Hknown.
    rewrite check_environments_filter in Hcheck;
      [|eapply select_well_formed; exact Hsel|exact Hknown].
    inversion Hcheck. auto.
Qed.

(** Every entry of a built universe is an entry of some category of the
    section, as the configuration has it, and its kernel is mapped to
    true by the environment mapping. *)
Theorem universe_entries :
  forall kind env section fl all0 ws all1 kept k i,
    build_universe kind env section fl all0 = (ws, inr (all1, kept)) ->
    In (k, i) kept ->
    (exists name category,
        In (name, category) section /\ In (k, i) category) /\
    (exists available kernel,
        env = Some available /\ kernel_name i = Some kernel /\
        Dict.get kernel available = Some true).
Proof.
  intros kind env section fl all0 ws all1 kept k i Hbuilt Hin.
  destruct (build_universe_returns _ _ _ _ _ _ _ _ Hbuilt)
    as [ws0 [ws' [merged [Hsel [_ [[_ [-> _]]|[available [-> [Hknown [-> _]]]]]]]]]];
    [destruct Hin|].
  apply filter_In in Hin. destruct Hin as [Hin Hav]. split.
  - rewrite (select_writes _ _ _ _ _ _ _ Hsel) in Hin.
    apply In_update_from_all in Hin. destruct Hin as [[]|[c [Hc Hin]]].
    apply writes_in_section, In_values in Hc. destruct Hc as [name Hc].
    exists name, c. auto.
  - rewrite Forall_forall in Hknown.
    destruct (Hknown _ Hin) as [kernel [b [Hk Hb]]]. simpl in Hk, Hb.
    exists available, kernel. split; [reflexivity|]. split; [exact Hk|].
    unfold kernel_available in Hav. simpl in Hav. rewrite Hk, Hb in Hav.
    now subst b.
Qed.

Lemma universe_entries_witness :
  build_universe Notebooks (Some mixed_env) mixed_section no_flags false
  = ([nb_environment_warning "npl" "plot_ocn"],
     inr (true, [("setup", entry "base" None)])) /\
  In ("setup", entry "base" None) [("setup", entry "base" None)] /\
  (exists name category,
      In (name, category) mixed_section
      /\ In ("setup", entry "base" None) category) /\
  (exists available kernel,
      Some mixed_env = Some available /\
      kernel_name (entry "base" None) = Some kernel /\
      Dict.get kernel available = Some true).
Proof.
  assert (Hbuilt : build_universe Notebooks (Some mixed_env) mixed_section
                                  no_flags false
                   = ([nb_environment_warning "npl" "plot_ocn"],
                      inr (true, [("setup", entry "base" None)])))
    by reflexivity.
  assert (Hin : In ("setup", entry "base" None)
                   [("setup", entry "base" None)]) by (now left).
  split; [exact Hbuilt|]. split; [exact Hin|].
  exact (universe_entries Notebooks (Some mixed_env) mixed_section no_flags
                          false _ _ _ "setup" _ Hbuilt Hin).
Defined.

Lemma filter_lengths {A} (f : A -> bool) l :
  length (filter f l) + length (filter (fun x => negb (f x)) l) = length l.
Proof.
  rewrite <- length_app. apply Permutation_length, filter_partition.
Qed.

(** A built universe has no name twice, lists entries of the selection
    only, and the filter has issued one warning for each selected task
    that it left out. *)
Theorem universe_restricts_selection :
  forall kind env section fl all0 ws all1 kept ws0 all1' merged,
    select kind section fl all0 = (ws0, inr (all1', merged)) ->
    build_universe kind env section fl all0 = (ws, inr (all1, kept)) ->
    NoDup (Dict.keys kept) /\
    (forall k i, Dict.get k kept = Some i -> Dict.get k merged = Some i) /\
    exists ws',
      ws = ws0 ++ ws' /\ length kept + length ws' = length merged.
Proof.
  intros kind env section fl all0 ws all1 kept ws0 all1' merged Hsel Hbuilt.
  pose proof (select_well_formed _ _ _ _ _ _ _ Hsel) as Hwf.
  destruct (build_universe_returns _ _ _ _ _ _ _ _ Hbuilt)
    as [ws1 [ws' [merged' [Hsel' [-> Hcases]]]]].
  rewrite Hsel in Hsel'. inversion Hsel'; subst ws1 all1' merged'.
  destruct Hcases as [[-> [-> ->]]|[available [-> [Hknown [-> ->]]]]].
  - split; [constructor|]. split; [auto|]. exists []. auto.
  - split; [now apply well_formed_filter|]. split.
    + intros k i Hget. apply get_Some_In, filter_In in Hget.
      apply In_get_Some; tauto.
    + eexists. split; [reflexivity|]. rewrite length_map.
      apply filter_lengths.
Qed.

Lemma universe_restricts_selection_witness :
  select Notebooks mixed_section no_flags false
  = ([], inr (true, [("setup", entry "base" None);
                     ("plot_ocn", entry "npl" None)])) /\
  build_universe Notebooks (Some mixed_env) mixed_section no_flags false
  = ([nb_environment_warning "npl" "plot_ocn"],
     inr (true, [("setup", entry "base" None)])) /\
  NoDup (Dict.keys [("setup", entry "base" None)]) /\
  (forall k i,
      Dict.get k [("setup", entry "base" None)] = Some i ->
      Dict.get k [("setup", entry "base" None);
                  ("plot_ocn", entry "npl" None)] = Some i) /\
  exists ws',
    [nb_environment_warning "npl" "plot_ocn"] = [] ++ ws' /\
    length [("setup", entry "base" None)] + length ws'
    = length [("setup", entry "base" None); ("plot_ocn", entry "npl" None)].
Proof.
  assert (Hsel : select Notebooks mixed_section no_flags false
                 = ([], inr (true, [("setup", entry "base" None);
                                    ("plot_ocn", entry "npl" None)])))
    by reflexivity.
  assert (Hbuilt : build_universe Notebooks (Some mixed_env) mixed_section
                                  no_flags false
                   = ([nb_environment_warning "npl" "plot_ocn"],
                      inr (true, [("setup", entry "base" None)])))
    by reflexivity.
  split; [exact Hsel|]. split; [exact Hbuilt|].
  exact (universe_restricts_selection Notebooks (Some mixed_env)
           mixed_section no_flags false _ _ _ _ _ _ Hsel Hbuilt).
Defined.

(** ** When the environment filter raises *)

(** The environment filter raises [KeyError] at the first selected task,
    in order, that the mapping cannot answer for: with the key
    [kernel_name] when the entry has none, with the kernel name itself
    when the mapping does not list it.  The warnings for the unavailable
    tasks before it have been issued; the tasks after it are not looked
    at. *)
Theorem unknown_kernel_key_error :
  forall kind env section fl all0 ws all1 before nb i after,
    select kind section fl all0
    = (ws, inr (all1, before ++ (nb, i) :: after)) ->
    Forall (kernel_known env) before ->
    ~ kernel_known env (nb, i) ->
    exists key,
      build_universe kind (Some env) section fl all0
      = (ws ++ map (environment_warning (warning_message kind))
                   (filter (kernel_unavailable env) before),
         inl (KeyError key)) /\
      ((kernel_name i = None /\ key = "kernel_name") \/
       (kernel_name i = Some key /\ Dict.get key env = None)).
Proof.
  intros kind env section fl all0 ws all1 before nb i after
         Hsel Hknown Hunknown.
  rewrite build_universe_unfold, Hsel. unfold Dict.items, Dict.copy.
  rewrite check_environments_app by exact Hknown.
  cbn [check_environments].
  destruct (kernel_name i) as [kernel|] eqn:Hk.
  - destruct (Dict.get kernel env) as [b|] eqn:Hb.
    + exfalso. apply Hunknown. exists kernel, b. now split.
    + exists kernel. cbn [fst snd]. rewrite app_nil_r. split; [reflexivity|].
      right. now split.
  - exists "kernel_name". cbn [fst snd]. rewrite app_nil_r.
    split; [reflexivity|]. left. now split.
Qed.

Lemma unknown_kernel_key_error_witness :
  select Notebooks
         [("infrastructure", [("setup", entry "npl" None);
                              ("index", entry "cupid-analysis" None);
                              ("last", entry "npl" None)])]
         no_flags false
  = ([], inr (true, [("setup", entry "npl" None)]
                      ++ ("index", entry "cupid-analysis" None)
                      :: [("last", entry "npl" None)])) /\
  Forall (kernel_known mixed_env) [("setup", entry "npl" None)] /\
  ~ kernel_known mixed_env ("index", entry "cupid-analysis" None) /\
  exists key,
    build_universe Notebooks (Some mixed_env)
      [("infrastructure", [("setup", entry "npl" None);
                           ("index", entry "cupid-analysis" None);
                           ("last", entry "npl" None)])]
      no_flags false
    = ([] ++ map (environment_warning (warning_message Notebooks))
                 (filter (kernel_unavailable mixed_env)
                         [("setup", entry "npl" None)]),
       inl (KeyError key)) /\
    ((kernel_name (entry "cupid-analysis" None) = None
      /\ key = "kernel_name") \/
     (kernel_name (entry "cupid-analysis" None) = Some key
      /\ Dict.get key mixed_env = None)).
Proof.
  assert (Hsel : select Notebooks
                   [("infrastructure", [("setup", entry "npl" None);
                                        ("index", entry "cupid-analysis" None);
                                        ("last", entry "npl" None)])]
                   no_flags false
                 = ([], inr (true, [("setup", entry "npl" None)]
                                     ++ ("index", entry "cupid-analysis" None)
                                     :: [("last", entry "npl" None)])))
    by reflexivity.
  assert (Hknown : Forall (kernel_known mixed_env)
                          [("setup", entry "npl" None)]).
  { repeat constructor. exists "npl", false. split; reflexivity. }
  assert (Hunknown : ~ kernel_known mixed_env
                       ("index", entry "cupid-analysis" None)).
  { intros [kernel [b [Hk Hb]]]. simpl in Hk. inversion Hk; subst kernel.
    discriminate Hb. }
  split; [exact Hsel|]. split; [exact Hknown|]. split; [exact Hunknown|].
  exact (unknown_kernel_key_error Notebooks mixed_env _ no_flags false
           _ _ _ "index" _ _ Hsel Hknown Hunknown).
Defined.

(** ** The value of [all] between the two blocks *)

Lemma select_returns_flag kind section fl all0 ws all1 merged :
  select kind section fl all0 = (ws, inr (all1, merged)) ->
  all1 = if no_component fl then true else all0.
Proof.
  destruct kind; cbn [select]; unfold select_notebooks, select_scripts.
  - destruct (Dict.get "infrastructure" section) as [infra|];
      [|discriminate].
    destruct (if no_component fl then true else all0) eqn:E.
    + intros H. now inversion H.
    + destruct (select_components "notebooks" section
                  (Dict.items (component_options fl))
                  (update_from infra [])).
      intros H. now inversion H.
  - destruct (if no_component fl then true else all0) eqn:E.
    + intros H. now inversion H.
    + destruct (select_components "scripts" section
                  (Dict.items (component_options fl)) []).
      intros H. now inversion H.
Qed.

Lemma build_universe_default kind env section fl all0 :
  build_universe kind env section fl
                 (if no_component fl then true else all0)
  = build_universe kind env section fl all0.
Proof.
  assert (Hsel : select kind section fl
                        (if no_component fl then true else all0)
                 = select kind section fl all0).
  { destruct kind; cbn [select]; unfold select_notebooks, select_scripts;
      destruct (no_component fl); reflexivity. }
  now rewrite !build_universe_unfold, Hsel.
Qed.

(** The value the notebook block leaves in [all] makes no difference to
    the script block, which applies the same default again: a universe
    built from the value [all] has after the default was applied is the
    universe built from the option as given. *)
Theorem default_applied_twice :
  forall kind env section fl all0,
    build_universe kind env section fl
                   (if no_component fl then true else all0)
    = build_universe kind env section fl all0.
Proof. exact build_universe_default. Qed.

(** Without [env_check] in the control structure, a universe is built
    only when nothing is selected; as soon as one task is selected the
    filter raises [KeyError] for [env_check], having issued no warning of
    its own. *)
Theorem missing_env_check :
  forall kind section fl all0 ws all1 merged,
    select kind section fl all0 = (ws, inr (all1, merged)) ->
    build_universe kind None section fl all0
    = (ws, match merged with
           | [] => inr (all1, [])
           | _ :: _ => inl (KeyError "env_check")
           end).
Proof.
  intros kind section fl all0 ws all1 merged Hsel.
  rewrite build_universe_unfold, Hsel. unfold Dict.items, Dict.copy.
  destruct merged as [|[nb i] merged]; cbn [check_environments];
    now rewrite app_nil_r.
Qed.

Lemma missing_env_check_witness :
  select Scripts scenario_section no_flags false
  = ([], inr (true, [("setup", entry "base" None);
                     ("plot_atm", entry "base" (Some (Dep_name "setup")))]))
  /\
  build_universe Scripts None scenario_section no_flags false
  = ([], match [("setup", entry "base" None);
                ("plot_atm", entry "base" (Some (Dep_name "setup")))] with
         | [] => inr (true, [])
         | _ :: _ => inl (KeyError "env_check")
         end).
Proof.
  assert (Hsel : select Scripts scenario_section no_flags false
                 = ([], inr (true,
                      [("setup", entry "base" None);
                       ("plot_atm", entry "base" (Some (Dep_name "setup")))])))
    by reflexivity.
  split; [exact Hsel|].
  exact (missing_env_check Scripts scenario_section no_flags false _ _ _
                           Hsel).
Defined.

(** ** Creating the tasks *)

Lemma add_task_returns t w g :
  obj_dag w = Some g ->
  add_task t w
  = (with_dag {| dag_executor := dag_executor g;
                 dag_tasks := dag_tasks g ++ [t] |} w, inr tt).
Proof.
  intros H. unfold add_task, bind, read_dag, modify. now rewrite H.
Qed.

Lemma store_param_returns gp v w :
  params_valid gp w ->
  exists w1,
    store_param gp "serial" v w = (w1, inr tt) /\
    obj_dag w1 = obj_dag w /\ warnings w1 = warnings w /\
    calls w1 = calls w /\ executed w1 = executed w /\
    tracebacklimit w1 = tracebacklimit w /\
    params_valid gp w1.
Proof.
  intros Hvalid. unfold store_param. destruct gp.
  - eexists. split; [reflexivity|]. repeat split. intros E. discriminate E.
  - destruct (Hvalid eq_refl) as [c [g [Hc Hg]]]. rewrite Hc, Hg.
    eexists. split; [reflexivity|]. repeat split.
    intros _. eexists. eexists. split; reflexivity.
Qed.

Lemma same_objects_refl w : same_objects w w.
Proof. repeat split. Qed.

Lemma same_objects_trans w1 w2 w3 :
  same_objects w1 w2 -> same_objects w2 w3 -> same_objects w1 w3.
Proof.
  intros [A1 [A2 [A3 [A4 A5]]]] [B1 [B2 [B3 [B4 B5]]]].
  repeat split; congruence.
Qed.

Lemma params_valid_same gp w w' :
  obj_control w' = obj_control w -> params_valid gp w -> params_valid gp w'.
Proof. intros E H Hgp. rewrite E. now apply H. Qed.

(** The loop of lines 138-146 adds one notebook task for each entry, in
    order, and cannot raise. *)
Lemma notebook_loop fl cat_path nbr od gp items :
  forall w ts,
    obj_dag w = Some {| dag_executor := Serial; dag_tasks := ts |} ->
    params_valid gp w ->
    exists w',
      for_each items
        (fun item =>
           let nb := fst item in
           let i := snd item in
           bind (store_param gp "serial" (PyBool (serial fl)))
                (fun _ =>
                   match info_dependency i with
                   | Some d =>
                       create_ploomber_nb_task nb i cat_path nbr od gp
                                               (Some d)
                   | None =>
                       create_ploomber_nb_task nb i cat_path nbr od gp None
                   end)) w
      = (w', inr tt) /\
      obj_dag w'
      = Some {| dag_executor := Serial;
                dag_tasks := ts ++ map (notebook_task cat_path nbr od gp)
                                       items |} /\
      warnings w' = warnings w /\ calls w' = calls w /\
      executed w' = executed w /\ tracebacklimit w' = tracebacklimit w /\
      params_valid gp w' /\
      (items = [] -> w' = w).
Proof.
  induction items as [|item items IH]; intros w ts Hdag Hvalid.
  - exists w. cbn [for_each map]. rewrite app_nil_r. now repeat split.
  - cbn [for_each].
    destruct (store_param_returns gp (PyBool (serial fl)) w Hvalid)
      as [w1 [Hstore [Hd1 [Hw1 [Hc1 [He1 [Ht1 Hv1]]]]]]].
    rewrite Hdag in Hd1.
    assert (Hbody :
              bind (store_param gp "serial" (PyBool (serial fl)))
                   (fun _ =>
                      match info_dependency (snd item) with
                      | Some d =>
                          create_ploomber_nb_task (fst item) (snd item)
                            cat_path nbr od gp (Some d)
                      | None =>
                          create_ploomber_nb_task (fst item) (snd item)
                            cat_path nbr od gp None
                      end) w
              = (with_dag
                   {| dag_executor := Serial;
                      dag_tasks := ts ++ [notebook_task cat_path nbr od gp
                                                        item] |} w1,
                 inr tt)).
    { erewrite bind_returns by exact Hstore.
      unfold create_ploomber_nb_task.
      destruct (info_dependency (snd item)) eqn:Hdep;
        rewrite (add_task_returns _ _ _ Hd1); unfold notebook_task;
        now rewrite Hdep. }
    erewrite bind_returns by exact Hbody.
    destruct (IH (with_dag
                    {| dag_executor := Serial;
                       dag_tasks := ts ++ [notebook_task cat_path nbr od gp
                                                         item] |} w1)
                 (ts ++ [notebook_task cat_path nbr od gp item])
                 eq_refl (params_valid_same gp w1 _ eq_refl Hv1))
      as [w' [Hloop [Hd' [Hw' [Hc' [He' [Ht' [Hv' _]]]]]]]].
    exists w'. split; [exact Hloop|].
    split; [rewrite Hd'; cbn [map]; now rewrite <- app_assoc|].
    cbn [warnings calls executed tracebacklimit with_dag] in *.
    split; [congruence|]. split; [congruence|]. split; [congruence|].
    split; [congruence|]. split; [exact Hv'|]. intros E. discriminate E.
Qed.

(** The loop of lines 184-190 adds one script task for each entry, in
    order, cannot raise, and touches nothing but the graph. *)
Lemma script_loop cat_path nbr gp items :
  forall w ts,
    obj_dag w = Some {| dag_executor := Serial; dag_tasks := ts |} ->
    exists w',
      for_each items
        (fun item =>
           let script := fst item in
           let i := snd item in
           match info_dependency i with
           | Some d =>
               create_ploomber_script_task script i cat_path nbr gp (Some d)
           | None =>
               create_ploomber_script_task script i cat_path nbr gp None
           end) w
      = (w', inr tt) /\
      obj_dag w'
      = Some {| dag_executor := Serial;
                dag_tasks := ts ++ map (script_task cat_path nbr gp) items |}
      /\ warnings w' = warnings w /\ same_objects w w'.
Proof.
  induction items as [|item items IH]; intros w ts Hdag.
  - exists w. cbn [for_each map]. rewrite app_nil_r.
    repeat split. exact Hdag.
  - cbn [for_each].
    assert (Hbody :
              (match info_dependency (snd item) with
               | Some d =>
                   create_ploomber_script_task (fst item) (snd item)
                     cat_path nbr gp (Some d)
               | None =>
                   create_ploomber_script_task (fst item) (snd item)
                     cat_path nbr gp None
               end) w
              = (with_dag
                   {| dag_executor := Serial;
                      dag_tasks := ts ++ [script_task cat_path nbr gp item] |}
                   w, inr tt)).
    { unfold create_ploomber_script_task.
      destruct (info_dependency (snd item)) eqn:Hdep;
        rewrite (add_task_returns _ _ _ Hdag); unfold script_task;
        now rewrite Hdep. }
    erewrite bind_returns by exact Hbody.
    destruct (IH (with_dag
                    {| dag_executor := Serial;
                       dag_tasks := ts ++ [script_task cat_path nbr gp item] |}
                    w)
                 (ts ++ [script_task cat_path nbr gp item]) eq_refl)
      as [w' [Hloop [Hd' [Hw' Hsame]]]].
    exists w'. split; [exact Hloop|].
    split; [rewrite Hd'; cbn [map]; now rewrite <- app_assoc|].
    split; [exact Hw'|exact Hsame].
Qed.

Lemma read_control_returns w c :
  obj_control w = Some c -> read_control w = (w, inr c).
Proof. intros H. unfold read_control. now rewrite H. Qed.

Lemma organize_notebooks_raises fl all0 cat_path nbr od gp w c0 section ws e :
  obj_control w = Some c0 ->
  compute_notebooks c0 = Some section ->
  notebook_universe (env_check c0) section fl all0 = (ws, inl e) ->
  organize_notebooks fl all0 cat_path nbr od gp w
  = (with_warnings ws w, inl e).
Proof.
  intros Hc Hsec Hu. unfold organize_notebooks.
  erewrite bind_returns by (apply read_control_returns; exact Hc).
  rewrite Hsec. unfold bind at 1, emit. now rewrite Hu.
Qed.

Lemma organize_scripts_raises fl all0 cat_path nbr gp w c0 section ws e :
  obj_control w = Some c0 ->
  compute_scripts c0 = Some section ->
  script_universe (env_check c0) section fl all0 = (ws, inl e) ->
  organize_scripts fl all0 cat_path nbr gp w
  = (with_warnings ws w, inl e).
Proof.
  intros Hc Hsec Hu. unfold organize_scripts.
  erewrite bind_returns by (apply read_control_returns; exact Hc).
  rewrite Hsec. unfold bind at 1, emit. now rewrite Hu.
Qed.

Lemma organize_notebooks_returns fl all0 cat_path nbr od gp w c0 section
      ws all1 u ts :
  obj_control w = Some c0 ->
  compute_notebooks c0 = Some section ->
  notebook_universe (env_check c0) section fl all0 = (ws, inr (all1, u)) ->
  obj_dag w = Some {| dag_executor := Serial; dag_tasks := ts |} ->
  params_valid gp w ->
  exists w',
    organize_notebooks fl all0 cat_path nbr od gp w = (w', inr all1) /\
    obj_dag w'
    = Some {| dag_executor := Serial;
              dag_tasks := ts ++ map (notebook_task cat_path nbr od gp) u |}
    /\ warnings w' = warnings w ++ ws /\ calls w' = calls w /\
    executed w' = executed w /\ tracebacklimit w' = tracebacklimit w /\
    (u = [] -> w' = with_warnings ws w).
Proof.
  intros Hc Hsec Hu Hdag Hvalid. unfold organize_notebooks.
  erewrite bind_returns by (apply read_control_returns; exact Hc).
  rewrite Hsec.
  erewrite bind_returns by (unfold emit; rewrite Hu; reflexivity).
  cbn [fst snd]. unfold Dict.items.
  destruct (notebook_loop fl cat_path nbr od gp u (with_warnings ws w) ts
                          Hdag (params_valid_same gp w _ eq_refl Hvalid))
    as [w' [Hloop [Hd' [Hw' [Hc' [He' [Ht' [_ Hnil]]]]]]]].
  erewrite bind_returns by exact Hloop.
  exists w'. split; [reflexivity|]. split; [exact Hd'|].
  cbn [warnings calls executed tracebacklimit with_warnings] in *.
  repeat split; assumption.
Qed.

Lemma organize_scripts_returns fl all0 cat_path nbr gp w c0 section
      ws all1 u ts :
  obj_control w = Some c0 ->
  compute_scripts c0 = Some section ->
  script_universe (env_check c0) section fl all0 = (ws, inr (all1, u)) ->
  obj_dag w = Some {| dag_executor := Serial; dag_tasks := ts |} ->
  exists w',
    organize_scripts fl all0 cat_path nbr gp w = (w', inr all1) /\
    obj_dag w'
    = Some {| dag_executor := Serial;
              dag_tasks := ts ++ map (script_task cat_path nbr gp) u |}
    /\ warnings w' = warnings w ++ ws /\ same_objects w w'.
Proof.
  intros Hc Hsec Hu Hdag. unfold organize_scripts.
  erewrite bind_returns by (apply read_control_returns; exact Hc).
  rewrite Hsec.
  erewrite bind_returns by (unfold emit; rewrite Hu; reflexivity).
  cbn [fst snd]. unfold Dict.items.
  destruct (script_loop cat_path nbr gp u (with_warnings ws w) ts Hdag)
    as [w' [Hloop [Hd' [Hw' Hsame]]]].
  erewrite bind_returns by exact Hloop.
  exists w'. split; [reflexivity|]. split; [exact Hd'|].
  split; [exact Hw'|exact Hsame].
Qed.

Lemma params_object_valid c w :
  obj_control w = Some c -> params_valid (params_object c) w.
Proof.
  intros Hc Hgp. unfold params_object in Hgp.
  destruct (global_params c) as [g|] eqn:Hg; [|discriminate Hgp].
  exists c, g. now split.
Qed.

Lemma graph_inv_start c v cat_path gp w :
  obj_control w = Some c ->
  executed w = [] ->
  graph_inv c v cat_path gp (calls w)
            (with_dag {| dag_executor := Serial; dag_tasks := [] |} w).
Proof.
  intros Hc Hex. split; [split|exact Hex].
  - reflexivity.
  - exists c. split; [exact Hc|apply control_touched_refl].
  - exists []. split; [reflexivity|]. split; [constructor|].
    intros [t [[] _]].
Qed.

(** The notebook block, when its universe can be built. *)
Lemma notebooks_stage c fl cat_path nbr od w ws1 a1 u1 :
  obj_control w = Some c ->
  obj_dag w = Some {| dag_executor := Serial; dag_tasks := [] |} ->
  selected_notebooks c fl = (ws1, inr (a1, u1)) ->
  exists w1,
    organize_notebooks fl (all fl) cat_path nbr od (params_object c) w
    = (w1, inr a1) /\
    obj_dag w1
    = Some {| dag_executor := Serial;
              dag_tasks := map (notebook_task cat_path nbr od
                                              (params_object c)) u1 |} /\
    warnings w1 = warnings w ++ ws1 /\ calls w1 = calls w /\
    executed w1 = executed w /\ tracebacklimit w1 = tracebacklimit w /\
    (u1 = [] ->
     obj_control w1 = Some c /\ obj_fresh_params w1 = obj_fresh_params w) /\
    (a1 = all fl \/ a1 = if no_component fl then true else all fl).
Proof.
  intros Hc Hdag Hsel. unfold selected_notebooks in Hsel.
  destruct (compute_notebooks c) as [section|] eqn:Hsec.
  - destruct (organize_notebooks_returns fl (all fl) cat_path nbr od
                (params_object c) w c section ws1 a1 u1 [] Hc Hsec Hsel Hdag
                (params_object_valid c w Hc))
      as [w1 [Hrun [Hd1 [Hw1 [Hc1 [He1 [Ht1 Hnil]]]]]]].
    exists w1. split; [exact Hrun|]. split; [exact Hd1|].
    split; [exact Hw1|]. split; [exact Hc1|]. split; [exact He1|].
    split; [exact Ht1|]. split.
    + intros Hu. rewrite (Hnil Hu). now split.
    + right. change notebook_universe with (build_universe Notebooks) in Hsel.
      destruct (build_universe_returns _ _ _ _ _ _ _ _ Hsel)
        as [ws0 [ws' [merged [Hs _]]]].
      eapply select_returns_flag. exact Hs.
  - inversion Hsel; subst ws1 a1 u1. exists w.
    split.
    { unfold organize_notebooks.
      erewrite bind_returns by (apply read_control_returns; exact Hc).
      now rewrite Hsec. }
    rewrite app_nil_r. repeat split; auto.
Qed.

(** The script block, run after the notebook block. *)
Lemma scripts_stage c c1 v fl a1 cat_path nbr gp w1 ts ws2 a2 u2 :
  obj_control w1 = Some c1 ->
  control_touched c c1 v ->
  obj_dag w1 = Some {| dag_executor := Serial; dag_tasks := ts |} ->
  (a1 = all fl \/ a1 = if no_component fl then true else all fl) ->
  selected_scripts c fl = (ws2, inr (a2, u2)) ->
  exists w2 a2',
    organize_scripts fl a1 cat_path nbr gp w1 = (w2, inr a2') /\
    obj_dag w2
    = Some {| dag_executor := Serial;
              dag_tasks := ts ++ map (script_task cat_path nbr gp) u2 |} /\
    warnings w2 = warnings w1 ++ ws2 /\ same_objects w1 w2.
Proof.
  intros Hc1 [_ [Henv [_ [Hscripts _]]]] Hdag Ha1 Hsel.
  unfold selected_scripts in Hsel.
  destruct (compute_scripts c) as [section|] eqn:Hsec.
  - assert (Hu : script_universe (env_check c1) section fl a1
                 = (ws2, inr (a2, u2))).
    { rewrite Henv. destruct Ha1 as [->| ->]; [exact Hsel|].
      rewrite <- Hsel.
      apply (build_universe_default Scripts (env_check c) section fl (all fl)). }
    assert (Hsec1 : compute_scripts c1 = Some section) by congruence.
    destruct (organize_scripts_returns fl a1 cat_path nbr gp w1 c1 section
                ws2 a2 u2 ts Hc1 Hsec1 Hu Hdag)
      as [w2 [Hrun [Hd2 [Hw2 Hsame]]]].
    exists w2, a2. auto.
  - inversion Hsel; subst ws2 a2 u2. exists w1, a1.
    split.
    { unfold organize_scripts.
      erewrite bind_returns by (apply read_control_returns; exact Hc1).
      now rewrite Hscripts. }
    rewrite !app_nil_r. split; [exact Hdag|].
    split; [reflexivity|apply same_objects_refl].
Qed.

Lemma scripts_stage_raises c c1 v fl a1 cat_path nbr gp w1 ws2 e :
  obj_control w1 = Some c1 ->
  control_touched c c1 v ->
  (a1 = all fl \/ a1 = if no_component fl then true else all fl) ->
  selected_scripts c fl = (ws2, inl e) ->
  organize_scripts fl a1 cat_path nbr gp w1 = (with_warnings ws2 w1, inl e).
Proof.
  intros Hc1 [_ [Henv [_ [Hscripts _]]]] Ha1 Hsel.
  unfold selected_scripts in Hsel.
  destruct (compute_scripts c) as [section|] eqn:Hsec; [|discriminate].
  assert (Hsec1 : compute_scripts c1 = Some section) by congruence.
  eapply organize_scripts_raises; [exact Hc1|exact Hsec1|].
  rewrite Henv. destruct Ha1 as [->| ->]; [exact Hsel|].
  rewrite <- Hsel.
  apply (build_universe_default Scripts (env_check c) section fl (all fl)).
Qed.

(** The preliminaries of lines 42-84, when the paths are configured. *)
Lemma manage_catalog_returns realpath expanduser temp w c ds :
  obj_control w = Some c ->
  ctl_data_sources c = Some ds ->
  exists w' cat_path,
    manage_catalog realpath expanduser temp w = (w', inr cat_path) /\
    tracebacklimit w' = tracebacklimit w /\
    warnings w' = warnings w /\
    obj_control w' = obj_control w /\
    obj_fresh_params w' = obj_fresh_params w /\
    obj_dag w' = obj_dag w /\
    executed w' = executed w.
Proof.
  intros Hc Hds.
  destruct (path_to_cat_json ds) as [p|] eqn:Hp.
  - destruct (subset ds) as [kwargs|] eqn:Hsub.
    + eexists. eexists. split.
      * eapply manage_catalog_subset; eassumption.
      * repeat split.
    + eexists. eexists. split.
      * unfold manage_catalog.
        erewrite bind_returns
          by (eapply control_data_sources_returns; eassumption).
        rewrite Hp.
        erewrite bind_returns by (unfold external, modify; reflexivity).
        erewrite bind_returns
          by (eapply control_data_sources_returns; eassumption).
        rewrite Hsub. reflexivity.
      * repeat split.
  - exists w, None. split; [|repeat split].
    unfold manage_catalog.
    erewrite bind_returns
      by (eapply control_data_sources_returns; eassumption).
    now rewrite Hp.
Qed.

Lemma run_reaches_graph get_control_dict realpath expanduser config_path fl
      c ds rd sn nbr :
  time_series fl = false ->
  get_control_dict config_path = inr c ->
  ctl_data_sources c = Some ds ->
  run_dir ds = Some rd ->
  sname ds = Some sn ->
  nb_path_root ds = Some nbr ->
  exists cat_path w_cat,
    manage_catalog realpath expanduser
                   (realpath (expanduser rd) ++ "/temp_data")
                   (loaded_world config_path c)
    = (w_cat, inr cat_path) /\
    obj_control w_cat = Some c /\ warnings w_cat = [] /\
    executed w_cat = [] /\
    run get_control_dict realpath expanduser config_path fl initial_world
    = organize_and_build fl cat_path (realpath (expanduser nbr))
        (realpath (expanduser rd) ++ "/computed_notebooks/" ++ sn)
        (params_object c) (with_fresh_params [] w_cat).
Proof.
  intros Hts Hload Hds Hrd Hsn Hnbr.
  destruct (manage_catalog_returns realpath expanduser
              (realpath (expanduser rd) ++ "/temp_data")
              (loaded_world config_path c) c ds eq_refl Hds)
    as [w_cat [cat_path [Hcat [_ [Hw [Hc [_ [_ He]]]]]]]].
  exists cat_path, w_cat. split; [exact Hcat|].
  split; [exact Hc|]. split; [exact Hw|]. split; [exact He|].
  unfold run. rewrite Hts.
  erewrite bind_returns by reflexivity.
  unfold run_diagnostics.
  erewrite bind_returns by (apply load_control_returns; exact Hload).
  erewrite bind_returns by (unfold external, modify; reflexivity).
  erewrite bind_returns
    by (eapply control_data_sources_returns; [reflexivity|exact Hds]).
  rewrite Hrd. erewrite bind_returns by reflexivity.
  erewrite bind_returns
    by (eapply control_data_sources_returns; [reflexivity|exact Hds]).
  rewrite Hsn. erewrite bind_returns by reflexivity.
  erewrite bind_returns
    by (eapply control_data_sources_returns; [reflexivity|exact Hds]).
  rewrite Hnbr. erewrite bind_returns by reflexivity.
  erewrite bind_returns by exact Hcat.
  erewrite bind_returns
    by (apply manage_global_params_returns; exact Hc).
  reflexivity.
Qed.

(** Lines 90-194 when both universes can be built. *)
Lemma organize_and_build_returns c fl cat_path nbr od w
      ws1 a1 u1 ws2 a2 u2 w' r :
  obj_control w = Some c ->
  executed w = [] ->
  selected_notebooks c fl = (ws1, inr (a1, u1)) ->
  selected_scripts c fl = (ws2, inr (a2, u2)) ->
  organize_and_build fl cat_path nbr od (params_object c) w = (w', r) ->
  exists g,
    obj_dag w' = Some g /\
    dag_executor g = Serial /\
    dag_tasks g
    = map (notebook_task cat_path nbr od (params_object c)) u1
        ++ map (script_task cat_path nbr (params_object c)) u2 /\
    warnings w' = warnings w ++ ws1 ++ ws2 /\
    r = match assemble g with inl e => inl e | inr _ => inr tt end /\
    executed w' = match assemble g with inl _ => [] | inr b => b end /\
    (u1 = [] ->
     obj_control w' = Some c /\ obj_fresh_params w' = obj_fresh_params w).
Proof.
  intros Hc Hex Hnb Hsc Hrun. unfold organize_and_build in Hrun.
  erewrite bind_returns in Hrun by (unfold modify; reflexivity).
  set (w0 := with_dag {| dag_executor := Serial; dag_tasks := [] |} w)
    in *.
  destruct (notebooks_stage c fl cat_path nbr od w0 ws1 a1 u1 Hc eq_refl Hnb)
    as [w1 [Hnbrun [Hd1 [Hw1 [_ [He1 [_ [Hnil Ha1]]]]]]]].
  pose proof (after_eq _ _ _ _ _
                (organize_notebooks_inv c (PyBool (serial fl)) cat_path
                   (params_object c) (calls w) fl (all fl) nbr od w0 eq_refl
                   (graph_inv_start c _ cat_path _ w Hc Hex))
                Hnbrun) as [[_ [c1 [Hc1 Htouched]] _] _].
  erewrite bind_returns in Hrun by exact Hnbrun.
  destruct (scripts_stage c c1 (PyBool (serial fl)) fl a1 cat_path nbr
              (params_object c) w1 _ ws2 a2 u2 Hc1 Htouched Hd1 Ha1 Hsc)
    as [w2 [a2' [Hscrun [Hd2 [Hw2 [_ [_ [Hc2 [Hf2 He2]]]]]]]]].
  erewrite bind_returns in Hrun by exact Hscrun.
  rewrite dag_build_unfold, Hd2 in Hrun.
  exists {| dag_executor := Serial;
            dag_tasks :=
              map (notebook_task cat_path nbr od (params_object c)) u1
                ++ map (script_task cat_path nbr (params_object c)) u2 |}.
  split; [|split; [reflexivity|split; [reflexivity|]]].
  - destruct (assemble _) in Hrun; inversion Hrun; subst; exact Hd2.
  - assert (Hwarn : warnings w2 = warnings w ++ ws1 ++ ws2).
    { rewrite Hw2, Hw1. subst w0. cbn [warnings with_dag].
      now rewrite app_assoc. }
    assert (Hexec : executed w2 = []).
    { rewrite He2, He1. subst w0. exact Hex. }
    assert (Hkeep : u1 = [] ->
                    obj_control w2 = Some c
                    /\ obj_fresh_params w2 = obj_fresh_params w).
    { intros Hu. destruct (Hnil Hu) as [Hk1 Hk2].
      rewrite Hc2, Hf2. split; [exact Hk1|exact Hk2]. }
    cbn [dag_tasks app] in *.
    destruct (assemble
                {| dag_executor := Serial;
                   dag_tasks :=
                     map (notebook_task cat_path nbr od (params_object c)) u1
                       ++ map (script_task cat_path nbr (params_object c))
                            u2 |}) as [e|batches];
      inversion Hrun; subst w' r; cbn [warnings executed obj_control
                                       obj_fresh_params with_executed].
    + repeat split; auto. now apply Hkeep. now apply Hkeep.
    + rewrite Hexec. repeat split; auto. now apply Hkeep. now apply Hkeep.
Qed.

(** ** The executor and the catalog subset *)




(** The run of the witness executes its three tasks one at a time, the
    script sees [serial], and the run without [--serial] does the same. *)
Example serial_run_of_both :
  executed (fst (run both_loader same_path same_path "config.yml"
                     serial_only initial_world))
  = [["setup"]; ["plot_atm"]; ["regrid"]] /\
  executed (fst (run both_loader same_path same_path "config.yml" no_flags
                     initial_world))
  = [["setup"]; ["plot_atm"]; ["regrid"]] /\
  option_map global_params
    (obj_control (fst (run both_loader same_path same_path "config.yml"
                           serial_only initial_world)))
  = Some (Some [("lc_kwargs", PyOther "{}"); ("serial", PyBool true)]) /\
  option_map (fun g => map task_global_params (dag_tasks g))
    (obj_dag (fst (run both_loader same_path same_path "config.yml"
                       serial_only initial_world)))
  = Some [Ref_control; Ref_control; Ref_control].
Proof. repeat split. Qed.

(** C9 at a catalog whose file name has two dots: the subset of
    [cesm.v2.json] is serialized as [cesm_subset], not [cesm.v2_subset],
    both tasks are handed [<run_dir>/temp_data/cesm_subset.json], and the
    subset of [cesm.v1.json] goes to the same file. *)
Theorem subset_named_to_first_dot :
  calls (fst (run catalog_loader same_path same_path "config.yml" no_flags
                  initial_world))
  = [ Call_get_control_dict "config.yml";
      Call_setup_book "config.yml";
      Call_open_esm_datastore "/data/catalogs/cesm.v2.json";
      Call_search [("case", PyStr "b.e23.control")];
      Call_serialize "/scratch/run/temp_data" "cesm_subset" "file" ] /\
  option_map (fun g => map (fun t => (task_name t, task_cat_path t))
                           (dag_tasks g))
    (obj_dag (fst (run catalog_loader same_path same_path "config.yml"
                       no_flags initial_world)))
  = Some [ ("setup", Some "/scratch/run/temp_data/cesm_subset.json");
           ("plot_atm", Some "/scratch/run/temp_data/cesm_subset.json") ] /\
  In (Call_serialize "/scratch/run/temp_data" "cesm_subset" "file")
     (calls (fst (run catalog_v1_loader same_path same_path "config.yml"
                      no_flags initial_world))).
Proof.
  split; [reflexivity|]. split; [reflexivity|].
  vm_compute. tauto.
Qed.

(** ** Runs with configured paths *)

(** When the paths are configured and both universes can be built, the
    graph handed to [dag.build()] has exactly one notebook task for each
    entry of the notebook universe, in order, followed by one script task
    for each entry of the script universe, in order.  Each task carries
    its entry, the dependency its entry declares, the resolved notebook
    root and, for notebooks, the directory
    [<run_dir>/computed_notebooks/<sname>].  The warnings of the run are
    those of the notebook universe followed by those of the script
    universe, and the run ends as the build of that graph ends. *)
Theorem run_creates_universe_tasks :
  forall get_control_dict realpath expanduser config_path fl c ds rd sn nbr
         ws1 a1 u1 ws2 a2 u2 w' r,
    time_series fl = false ->
    get_control_dict config_path = inr c ->
    ctl_data_sources c = Some ds ->
    run_dir ds = Some rd ->
    sname ds = Some sn ->
    nb_path_root ds = Some nbr ->
    selected_notebooks c fl = (ws1, inr (a1, u1)) ->
    selected_scripts c fl = (ws2, inr (a2, u2)) ->
    run get_control_dict realpath expanduser config_path fl initial_world
    = (w', r) ->
    exists cat_path g,
      obj_dag w' = Some g /\
      dag_executor g = Serial /\
      dag_tasks g
      = map (notebook_task cat_path (realpath (expanduser nbr))
               (realpath (expanduser rd) ++ "/computed_notebooks/" ++ sn)
               (params_object c)) u1
          ++ map (script_task cat_path (realpath (expanduser nbr))
                              (params_object c)) u2 /\
      warnings w' = ws1 ++ ws2 /\
      r = match assemble g with inl e => inl e | inr _ => inr tt end.
Proof.
  intros get_control_dict realpath expanduser config_path fl c ds rd sn nbr
         ws1 a1 u1 ws2 a2 u2 w' r Hts Hload Hds Hrd Hsn Hnbr Hnb Hsc Hrun.
  destruct (run_reaches_graph get_control_dict realpath expanduser
              config_path fl c ds rd sn nbr Hts Hload Hds Hrd Hsn Hnbr)
    as [cat_path [w_cat [_ [Hc [Hw [He Heq]]]]]].
  rewrite Heq in Hrun.
  destruct (organize_and_build_returns c fl cat_path _ _
              (with_fresh_params [] w_cat) ws1 a1 u1 ws2 a2 u2 w' r
              Hc He Hnb Hsc Hrun)
    as [g [Hg [Hserial [Htasks [Hwarn [Hr _]]]]]].
  exists cat_path, g. cbn [warnings with_fresh_params] in Hwarn.
  rewrite Hw in Hwarn. auto.
Qed.

Lemma run_creates_universe_tasks_witness :
  time_series no_flags = false /\
  mixed_loader "config.yml" = inr mixed_control /\
  ctl_data_sources mixed_control = Some scenario_data_sources /\
  run_dir scenario_data_sources = Some "/scratch/run" /\
  sname scenario_data_sources = Some "case1" /\
  nb_path_root scenario_data_sources = Some "/cupid/nblibrary" /\
  selected_notebooks mixed_control no_flags
  = ([nb_environment_warning "npl" "plot_ocn"],
     inr (true, [("setup", entry "base" None)])) /\
  selected_scripts mixed_control no_flags
  = ([script_environment_warning "npl" "plot_ocn"],
     inr (true, [("setup", entry "base" None)])) /\
  run mixed_loader same_path same_path "config.yml" no_flags initial_world
  = (fst (run mixed_loader same_path same_path "config.yml" no_flags
              initial_world), inr tt) /\
  exists cat_path g,
    obj_dag (fst (run mixed_loader same_path same_path "config.yml" no_flags
                      initial_world)) = Some g /\
    dag_executor g = Serial /\
    dag_tasks g
    = map (notebook_task cat_path (same_path (same_path "/cupid/nblibrary"))
             (same_path (same_path "/scratch/run") ++ "/computed_notebooks/"
                ++ "case1")
             (params_object mixed_control)) [("setup", entry "base" None)]
        ++ map (script_task cat_path
                            (same_path (same_path "/cupid/nblibrary"))
                            (params_object mixed_control))
               [("setup", entry "base" None)] /\
    warnings (fst (run mixed_loader same_path same_path "config.yml"
                       no_flags initial_world))
    = [nb_environment_warning "npl" "plot_ocn"]
        ++ [script_environment_warning "npl" "plot_ocn"] /\
    inr tt = match assemble g with inl e => inl e | inr _ => inr tt end.
Proof.
  assert (Hrun : run mixed_loader same_path same_path "config.yml" no_flags
                     initial_world
                 = (fst (run mixed_loader same_path same_path "config.yml"
                             no_flags initial_world), inr tt))
    by (vm_compute; reflexivity).
  do 8 (split; [reflexivity|]). split; [exact Hrun|].
  exact (run_creates_universe_tasks mixed_loader same_path same_path
           "config.yml" no_flags mixed_control scenario_data_sources
           "/scratch/run" "case1" "/cupid/nblibrary" _ _ _ _ _ _ _ _
           eq_refl eq_refl eq_refl eq_refl eq_refl eq_refl eq_refl eq_refl
           Hrun).
Defined.

Lemma bind_raises {A B} (m : M A) (k : A -> M B) w w' e :
  m w = (w', inl e) -> bind m k w = (w', inl e).
Proof. unfold bind. now intros ->. Qed.

(** When the notebook universe cannot be built, the run ends with the
    exception of the notebook block: the graph is left without a task, the
    script block is not entered, so that none of its warnings is issued,
    and nothing is executed. *)
Theorem notebook_error_aborts :
  forall get_control_dict realpath expanduser config_path fl c ds rd sn nbr
         ws1 e w' r,
    time_series fl = false ->
    get_control_dict config_path = inr c ->
    ctl_data_sources c = Some ds ->
    run_dir ds = Some rd ->
    sname ds = Some sn ->
    nb_path_root ds = Some nbr ->
    selected_notebooks c fl = (ws1, inl e) ->
    run get_control_dict realpath expanduser config_path fl initial_world
    = (w', r) ->
    r = inl e /\
    warnings w' = ws1 /\
    obj_dag w' = Some {| dag_executor := Serial; dag_tasks := [] |} /\
    executed w' = [].
Proof.
  intros get_control_dict realpath expanduser config_path fl c ds rd sn nbr
         ws1 e w' r Hts Hload Hds Hrd Hsn Hnbr Hnb Hrun.
  destruct (run_reaches_graph get_control_dict realpath expanduser
              config_path fl c ds rd sn nbr Hts Hload Hds Hrd Hsn Hnbr)
    as [cat_path [w_cat [_ [Hc [Hw [He Heq]]]]]].
  rewrite Heq in Hrun. unfold organize_and_build in Hrun.
  erewrite bind_returns in Hrun by (unfold modify; reflexivity).
  unfold selected_notebooks in Hnb.
  destruct (compute_notebooks c) as [section|] eqn:Hsec; [|discriminate].
  erewrite bind_raises in Hrun
    by (eapply organize_notebooks_raises; [exact Hc|exact Hsec|exact Hnb]).
  inversion Hrun; subst w' r.
  cbn [warnings obj_dag executed with_warnings with_dag with_fresh_params].
  rewrite Hw, He. auto.
Qed.

Lemma notebook_error_aborts_witness :
  time_series no_flags = false /\
  unknown_kernel_loader "config.yml" = inr unknown_kernel_control /\
  ctl_data_sources unknown_kernel_control = Some scenario_data_sources /\
  run_dir scenario_data_sources = Some "/scratch/run" /\
  sname scenario_data_sources = Some "case1" /\
  nb_path_root scenario_data_sources = Some "/cupid/nblibrary" /\
  selected_notebooks unknown_kernel_control no_flags
  = ([], inl (KeyError "cupid-analysis")) /\
  run unknown_kernel_loader same_path same_path "config.yml" no_flags
      initial_world
  = (fst (run unknown_kernel_loader same_path same_path "config.yml"
              no_flags initial_world),
     inl (KeyError "cupid-analysis")) /\
  @inl exn unit (KeyError "cupid-analysis")
  = inl (KeyError "cupid-analysis") /\
  warnings (fst (run unknown_kernel_loader same_path same_path "config.yml"
                     no_flags initial_world)) = [] /\
  obj_dag (fst (run unknown_kernel_loader same_path same_path "config.yml"
                    no_flags initial_world))
  = Some {| dag_executor := Serial; dag_tasks := [] |} /\
  executed (fst (run unknown_kernel_loader same_path same_path "config.yml"
                     no_flags initial_world)) = [].
Proof.
  assert (Hrun : run unknown_kernel_loader same_path same_path "config.yml"
                     no_flags initial_world
                 = (fst (run unknown_kernel_loader same_path same_path
                             "config.yml" no_flags initial_world),
                    inl (KeyError "cupid-analysis")))
    by (vm_compute; reflexivity).
  do 7 (split; [reflexivity|]). split; [exact Hrun|].
  exact (notebook_error_aborts unknown_kernel_loader same_path same_path
           "config.yml" no_flags unknown_kernel_control scenario_data_sources
           "/scratch/run" "case1" "/cupid/nblibrary" _ _ _ _
           eq_refl eq_refl eq_refl eq_refl eq_refl eq_refl eq_refl Hrun).
Defined.

(** When the notebook universe can be built and the script universe
    cannot, the run ends with the exception of the script block: the
    notebook tasks have been created and both blocks have issued their
    warnings, but the graph is not built and nothing is executed. *)
Theorem script_error_aborts :
  forall get_control_dict realpath expanduser config_path fl c ds rd sn nbr
         ws1 a1 u1 ws2 e w' r,
    time_series fl = false ->
    get_control_dict config_path = inr c ->
    ctl_data_sources c = Some ds ->
    run_dir ds = Some rd ->
    sname ds = Some sn ->
    nb_path_root ds = Some nbr ->
    selected_notebooks c fl = (ws1, inr (a1, u1)) ->
    selected_scripts c fl = (ws2, inl e) ->
    run get_control_dict realpath expanduser config_path fl initial_world
    = (w', r) ->
    r = inl e /\
    warnings w' = ws1 ++ ws2 /\
    (exists cat_path,
        obj_dag w'
        = Some {| dag_executor := Serial;
                  dag_tasks :=
                    map (notebook_task cat_path (realpath (expanduser nbr))
                           (realpath (expanduser rd)
                              ++ "/computed_notebooks/" ++ sn)
                           (params_object c)) u1 |}) /\
    executed w' = [].
Proof.
  intros get_control_dict realpath expanduser config_path fl c ds rd sn nbr
         ws1 a1 u1 ws2 e w' r Hts Hload Hds Hrd Hsn Hnbr Hnb Hsc Hrun.
  destruct (run_reaches_graph get_control_dict realpath expanduser
              config_path fl c ds rd sn nbr Hts Hload Hds Hrd Hsn Hnbr)
    as [cat_path [w_cat [_ [Hc [Hw [He Heq]]]]]].
  rewrite Heq in Hrun. unfold organize_and_build in Hrun.
  erewrite bind_returns in Hrun by (unfold modify; reflexivity).
  set (w0 := with_dag {| dag_executor := Serial; dag_tasks := [] |}
                      (with_fresh_params [] w_cat)) in *.
  destruct (notebooks_stage c fl cat_path (realpath (expanduser nbr))
              (realpath (expanduser rd) ++ "/computed_notebooks/" ++ sn)
              w0 ws1 a1 u1 Hc eq_refl Hnb)
    as [w1 [Hnbrun [Hd1 [Hw1 [_ [He1 [_ [_ Ha1]]]]]]]].
  pose proof (after_eq _ _ _ _ _
                (organize_notebooks_inv c (PyBool (serial fl)) cat_path
                   (params_object c) (calls (with_fresh_params [] w_cat))
                   fl (all fl) _ _ w0 eq_refl
                   (graph_inv_start c _ cat_path _
                      (with_fresh_params [] w_cat) Hc He))
                Hnbrun) as [[_ [c1 [Hc1 Htouched]] _] _].
  erewrite bind_returns in Hrun by exact Hnbrun.
  erewrite bind_raises in Hrun
    by (eapply scripts_stage_raises; eassumption).
  inversion Hrun; subst w' r.
  cbn [warnings obj_dag executed with_warnings].
  split; [reflexivity|]. split.
  - rewrite Hw1. subst w0. cbn [warnings with_dag with_fresh_params].
    now rewrite Hw.
  - split; [exists cat_path; exact Hd1|]. rewrite He1. exact He.
Qed.

Lemma script_error_aborts_witness :
  time_series no_flags = false /\
  script_error_loader "config.yml" = inr script_error_control /\
  ctl_data_sources script_error_control = Some scenario_data_sources /\
  run_dir scenario_data_sources = Some "/scratch/run" /\
  sname scenario_data_sources = Some "case1" /\
  nb_path_root scenario_data_sources = Some "/cupid/nblibrary" /\
  selected_notebooks script_error_control no_flags
  = ([], inr (true, [("setup", entry "base" None);
                     ("plot_atm", entry "base" (Some (Dep_name "setup")))]))
  /\
  selected_scripts script_error_control no_flags
  = ([], inl (KeyError "cupid-analysis")) /\
  run script_error_loader same_path same_path "config.yml" no_flags
      initial_world
  = (fst (run script_error_loader same_path same_path "config.yml"
              no_flags initial_world),
     inl (KeyError "cupid-analysis")) /\
  @inl exn unit (KeyError "cupid-analysis")
  = inl (KeyError "cupid-analysis") /\
  warnings (fst (run script_error_loader same_path same_path "config.yml"
                     no_flags initial_world)) = [] ++ [] /\
  (exists cat_path,
      obj_dag (fst (run script_error_loader same_path same_path "config.yml"
                        no_flags initial_world))
      = Some {| dag_executor := Serial;
                dag_tasks :=
                  map (notebook_task cat_path
                         (same_path (same_path "/cupid/nblibrary"))
                         (same_path (same_path "/scratch/run")
                            ++ "/computed_notebooks/" ++ "case1")
                         (params_object script_error_control))
                      [("setup", entry "base" None);
                       ("plot_atm",
                        entry "base" (Some (Dep_name "setup")))] |}) /\
  executed (fst (run script_error_loader same_path same_path "config.yml"
                     no_flags initial_world)) = [].
Proof.
  assert (Hrun : run script_error_loader same_path same_path "config.yml"
                     no_flags initial_world
                 = (fst (run script_error_loader same_path same_path
                             "config.yml" no_flags initial_world),
                    inl (KeyError "cupid-analysis")))
    by (vm_compute; reflexivity).
  do 8 (split; [reflexivity|]). split; [exact Hrun|].
  exact (script_error_aborts script_error_loader same_path same_path
           "config.yml" no_flags script_error_control scenario_data_sources
           "/scratch/run" "case1" "/cupid/nblibrary" _ _ _ _ _ _ _
           eq_refl eq_refl eq_refl eq_refl eq_refl eq_refl eq_refl eq_refl
           Hrun).
Defined.



(** ** The catalog *)

Lemma run_with_catalog get_control_dict realpath expanduser config_path fl
      c ds rd sn nbr w_cat cat_path w' r :
  time_series fl = false ->
  get_control_dict config_path = inr c ->
  ctl_data_sources c = Some ds ->
  run_dir ds = Some rd ->
  sname ds = Some sn ->
  nb_path_root ds = Some nbr ->
  manage_catalog realpath expanduser
                 (realpath (expanduser rd) ++ "/temp_data")
                 (loaded_world config_path c)
  = (w_cat, inr cat_path) ->
  run get_control_dict realpath expanduser config_path fl initial_world
  = (w', r) ->
  calls w' = calls w_cat /\
  forall g t,
    obj_dag w' = Some g -> In t (dag_tasks g) -> task_cat_path t = cat_path.
Proof.
  intros Hts Hload Hds Hrd Hsn Hnbr Hcat Hrun.
  destruct (run_reaches_graph get_control_dict realpath expanduser
              config_path fl c ds rd sn nbr Hts Hload Hds Hrd Hsn Hnbr)
    as [cat_path' [w_cat' [Hcat' [Hc [_ [He Heq]]]]]].
  rewrite Hcat in Hcat'. inversion Hcat'; subst w_cat' cat_path'.
  rewrite Heq in Hrun.
  pose proof (after_eq _ _ _ _ _
                (organize_and_build_spec c fl cat_path _ _ (params_object c)
                   (with_fresh_params [] w_cat) Hc He) Hrun)
    as [[Hcalls _ [ts [Hdag [Hall _]]]] _].
  split; [exact Hcalls|].
  intros g t Hg Hin. rewrite Hdag in Hg. inversion Hg; subst g.
  rewrite Forall_forall in Hall. now destruct (Hall t Hin).
Qed.

(** Without [path_to_cat_json] the catalog service is not called at all
    and no task is handed a catalog path, whether or not the configuration
    has a [subset]. *)
Theorem no_catalog_path :
  forall get_control_dict realpath expanduser config_path fl c ds rd sn nbr
         w' r,
    time_series fl = false ->
    get_control_dict config_path = inr c ->
    ctl_data_sources c = Some ds ->
    run_dir ds = Some rd ->
    sname ds = Some sn ->
    nb_path_root ds = Some nbr ->
    path_to_cat_json ds = None ->
    run get_control_dict realpath expanduser config_path fl initial_world
    = (w', r) ->
    calls w' = [ Call_get_control_dict config_path;
                 Call_setup_book config_path ] /\
    forall g t,
      obj_dag w' = Some g -> In t (dag_tasks g) -> task_cat_path t = None.
Proof.
  intros get_control_dict realpath expanduser config_path fl c ds rd sn nbr
         w' r Hts Hload Hds Hrd Hsn Hnbr Hp Hrun.
  assert (Hcat : manage_catalog realpath expanduser
                   (realpath (expanduser rd) ++ "/temp_data")
                   (loaded_world config_path c)
                 = (loaded_world config_path c, inr None)).
  { unfold manage_catalog.
    erewrite bind_returns
      by (eapply control_data_sources_returns; [reflexivity|exact Hds]).
    now rewrite Hp. }
  exact (run_with_catalog get_control_dict realpath expanduser config_path fl
           c ds rd sn nbr _ _ w' r Hts Hload Hds Hrd Hsn Hnbr Hcat Hrun).
Qed.

Lemma no_catalog_path_witness :
  time_series no_flags = false /\
  subset_only_loader "config.yml"
  = inr (control_with subset_only_data_sources None (Some [("base", true)])
                      (Some scenario_section) None) /\
  ctl_data_sources
    (control_with subset_only_data_sources None (Some [("base", true)])
                  (Some scenario_section) None)
  = Some subset_only_data_sources /\
  run_dir subset_only_data_sources = Some "/scratch/run" /\
  sname subset_only_data_sources = Some "case1" /\
  nb_path_root subset_only_data_sources = Some "/cupid/nblibrary" /\
  path_to_cat_json subset_only_data_sources = None /\
  run subset_only_loader same_path same_path "config.yml" no_flags
      initial_world
  = (fst (run subset_only_loader same_path same_path "config.yml" no_flags
              initial_world), inr tt) /\
  calls (fst (run subset_only_loader same_path same_path "config.yml"
                  no_flags initial_world))
  = [ Call_get_control_dict "config.yml"; Call_setup_book "config.yml" ] /\
  forall g t,
    obj_dag (fst (run subset_only_loader same_path same_path "config.yml"
                      no_flags initial_world)) = Some g ->
    In t (dag_tasks g) -> task_cat_path t = None.
Proof.
  assert (Hrun : run subset_only_loader same_path same_path "config.yml"
                     no_flags initial_world
                 = (fst (run subset_only_loader same_path same_path
                             "config.yml" no_flags initial_world), inr tt))
    by (vm_compute; reflexivity).
  do 7 (split; [reflexivity|]). split; [exact Hrun|].
  exact (no_catalog_path subset_only_loader same_path same_path "config.yml"
           no_flags _ subset_only_data_sources "/scratch/run" "case1"
           "/cupid/nblibrary" _ _
           eq_refl eq_refl eq_refl eq_refl eq_refl eq_refl eq_refl Hrun).
Defined.

(** With [path_to_cat_json] and no [subset], the catalog is opened,
    nothing is searched or serialized, and every task is handed the
    resolved path of the catalog itself. *)
Theorem whole_catalog_path :
  forall get_control_dict realpath expanduser config_path fl c ds rd sn nbr
         p w' r,
    time_series fl = false ->
    get_control_dict config_path = inr c ->
    ctl_data_sources c = Some ds ->
    run_dir ds = Some rd ->
    sname ds = Some sn ->
    nb_path_root ds = Some nbr ->
    path_to_cat_json ds = Some p ->
    subset ds = None ->
    run get_control_dict realpath expanduser config_path fl initial_world
    = (w', r) ->
    calls w' = [ Call_get_control_dict config_path;
                 Call_setup_book config_path;
                 Call_open_esm_datastore (realpath (expanduser p)) ] /\
    forall g t,
      obj_dag w' = Some g -> In t (dag_tasks g) ->
      task_cat_path t = Some (realpath (expanduser p)).
Proof.
  intros get_control_dict realpath expanduser config_path fl c ds rd sn nbr
         p w' r Hts Hload Hds Hrd Hsn Hnbr Hp Hsub Hrun.
  assert (Hcat : manage_catalog realpath expanduser
                   (realpath (expanduser rd) ++ "/temp_data")
                   (loaded_world config_path c)
                 = (with_call
                      (Call_open_esm_datastore (realpath (expanduser p)))
                      (loaded_world config_path c),
                    inr (Some (realpath (expanduser p))))).
  { unfold manage_catalog.
    erewrite bind_returns
      by (eapply control_data_sources_returns; [reflexivity|exact Hds]).
    rewrite Hp.
    erewrite bind_returns by (unfold external, modify; reflexivity).
    erewrite bind_returns
      by (eapply control_data_sources_returns; [reflexivity|exact Hds]).
    now rewrite Hsub. }
  exact (run_with_catalog get_control_dict realpath expanduser config_path fl
           c ds rd sn nbr _ _ w' r Hts Hload Hds Hrd Hsn Hnbr Hcat Hrun).
Qed.

Lemma whole_catalog_path_witness :
  time_series no_flags = false /\
  whole_catalog_loader "config.yml"
  = inr (control_with whole_catalog_data_sources None
                      (Some [("base", true)]) (Some scenario_section) None)
  /\
  ctl_data_sources
    (control_with whole_catalog_data_sources None (Some [("base", true)])
                  (Some scenario_section) None)
  = Some whole_catalog_data_sources /\
  run_dir whole_catalog_data_sources = Some "/scratch/run" /\
  sname whole_catalog_data_sources = Some "case1" /\
  nb_path_root whole_catalog_data_sources = Some "/cupid/nblibrary" /\
  path_to_cat_json whole_catalog_data_sources
  = Some "/data/catalogs/cesm.v2.json" /\
  subset whole_catalog_data_sources = None /\
  run whole_catalog_loader same_path same_path "config.yml" no_flags
      initial_world
  = (fst (run whole_catalog_loader same_path same_path "config.yml" no_flags
              initial_world), inr tt) /\
  calls (fst (run whole_catalog_loader same_path same_path "config.yml"
                  no_flags initial_world))
  = [ Call_get_control_dict "config.yml"; Call_setup_book "config.yml";
      Call_open_esm_datastore
        (same_path (same_path "/data/catalogs/cesm.v2.json")) ] /\
  forall g t,
    obj_dag (fst (run whole_catalog_loader same_path same_path "config.yml"
                      no_flags initial_world)) = Some g ->
    In t (dag_tasks g) ->
    task_cat_path t
    = Some (same_path (same_path "/data/catalogs/cesm.v2.json")).
Proof.
  assert (Hrun : run whole_catalog_loader same_path same_path "config.yml"
                     no_flags initial_world
                 = (fst (run whole_catalog_loader same_path same_path
                             "config.yml" no_flags initial_world), inr tt))
    by (vm_compute; reflexivity).
  do 8 (split; [reflexivity|]). split; [exact Hrun|].
  exact (whole_catalog_path whole_catalog_loader same_path same_path
           "config.yml" no_flags _ whole_catalog_data_sources "/scratch/run"
           "case1" "/cupid/nblibrary" "/data/catalogs/cesm.v2.json" _ _
           eq_refl eq_refl eq_refl eq_refl eq_refl eq_refl eq_refl eq_refl
           Hrun).
Defined.

Lemma split_pieces c s :
  forall piece,
    In piece (split c s) ->
    has_char c piece = false /\
    forall d, has_char d s = false -> has_char d piece = false.
Proof.
  induction s as [|a s IH]; intros piece Hin; simpl in Hin.
  - destruct Hin as [<-|[]]. split; [reflexivity|auto].
  - destruct (Ascii.eqb a c) eqn:Hac.
    + destruct Hin as [<-|Hin]; [split; [reflexivity|reflexivity]|].
      destruct (IH piece Hin) as [H1 H2]. split; [exact H1|].
      intros d Hd. simpl in Hd. apply orb_false_iff in Hd. now apply H2.
    + destruct (split c s) as [|p ps] eqn:Hsplit.
      * destruct Hin as [<-|[]]. simpl. rewrite Hac. split; [reflexivity|].
        intros d Hd. simpl in Hd. apply orb_false_iff in Hd.
        now rewrite (proj1 Hd).
      * destruct Hin as [<-|Hin].
        -- destruct (IH p (or_introl eq_refl)) as [H1 H2]. simpl.
           rewrite Hac, H1. split; [reflexivity|].
           intros d Hd. simpl in Hd. apply orb_false_iff in Hd.
           rewrite (proj1 Hd). now apply H2.
        -- destruct (IH piece (or_intror Hin)) as [H1 H2].
           split; [exact H1|].
           intros d Hd. simpl in Hd. apply orb_false_iff in Hd. now apply H2.
Qed.

Lemma last_In {A} (l : list A) d : l <> [] -> In (last l d) l.
Proof.
  induction l as [|x l IH]; [congruence|]. intros _.
  destruct l as [|y l]; [now left|].
  right. apply IH. discriminate.
Qed.

Lemma has_char_append c a b :
  has_char c (a ++ b) = has_char c a || has_char c b.
Proof.
  induction a as [|x a IH]; simpl; [reflexivity|].
  now rewrite IH, orb_assoc.
Qed.

(** Whatever the path of the catalog, the name under which its subset is
    serialized contains neither a slash nor a dot: the file
    [<name>.json] lies in the temporary directory itself, and that is the
    catalog path returned. *)
Theorem subset_name_plain :
  forall realpath expanduser temp w c ds p kwargs,
    obj_control w = Some c ->
    ctl_data_sources c = Some ds ->
    path_to_cat_json ds = Some p ->
    subset ds = Some kwargs ->
    exists name,
      has_char "/" name = false /\
      has_char "." name = false /\
      manage_catalog realpath expanduser temp w
      = (with_call (Call_serialize temp name "file")
           (with_call (Call_search kwargs)
              (with_call (Call_open_esm_datastore (realpath (expanduser p)))
                         w)),
         inr (Some (temp ++ "/" ++ name ++ ".json")%string)).
Proof.
  intros realpath expanduser temp w c ds p kwargs Hc Hds Hp Hsub.
  rewrite (manage_catalog_subset realpath expanduser temp w c ds p kwargs
                                 Hc Hds Hp Hsub).
  exists (hd EmptyString
             (split "." (last (split "/" (realpath (expanduser p)))
                              EmptyString)) ++ "_subset")%string.
  split; [|split; [|reflexivity]].
  - rewrite has_char_append, orb_false_iff. split; [|reflexivity].
    set (base := last (split "/" (realpath (expanduser p))) EmptyString).
    assert (Hbase : has_char "/" base = false).
    { assert (Hin : In base (split "/" (realpath (expanduser p))))
        by (apply last_In, split_nonempty).
      now destruct (split_pieces "/" _ base Hin). }
    pose proof (split_nonempty "." base) as Hne.
    destruct (split "." base) as [|stem pieces] eqn:Hsplit; [congruence|].
    cbn [hd].
    assert (Hin : In stem (split "." base)) by (rewrite Hsplit; now left).
    destruct (split_pieces "." base stem Hin) as [_ Hother].
    now apply Hother.
  - rewrite has_char_append, orb_false_iff. split; [|reflexivity].
    set (base := last (split "/" (realpath (expanduser p))) EmptyString).
    pose proof (split_nonempty "." base) as Hne.
    destruct (split "." base) as [|stem pieces] eqn:Hsplit; [congruence|].
    cbn [hd].
    assert (Hin : In stem (split "." base)) by (rewrite Hsplit; now left).
    now destruct (split_pieces "." base stem Hin).
Qed.

Lemma subset_name_plain_witness :
  obj_control
    (loaded_world "config.yml"
       (control_with catalog_data_sources None (Some [("base", true)])
                     (Some scenario_section) None))
  = Some (control_with catalog_data_sources None (Some [("base", true)])
                       (Some scenario_section) None) /\
  ctl_data_sources
    (control_with catalog_data_sources None (Some [("base", true)])
                  (Some scenario_section) None)
  = Some catalog_data_sources /\
  path_to_cat_json catalog_data_sources = Some "/data/catalogs/cesm.v2.json"
  /\
  subset catalog_data_sources = Some [("case", PyStr "b.e23.control")] /\
  exists name,
    has_char "/" name = false /\
    has_char "." name = false /\
    manage_catalog same_path same_path "/scratch/run/temp_data"
      (loaded_world "config.yml"
         (control_with catalog_data_sources None (Some [("base", true)])
                       (Some scenario_section) None))
    = (with_call (Call_serialize "/scratch/run/temp_data" name "file")
         (with_call (Call_search [("case", PyStr "b.e23.control")])
            (with_call
               (Call_open_esm_datastore
                  (same_path (same_path "/data/catalogs/cesm.v2.json")))
               (loaded_world "config.yml"
                  (control_with catalog_data_sources None
                                (Some [("base", true)])
                                (Some scenario_section) None)))),
       inr (Some ("/scratch/run/temp_data" ++ "/" ++ name ++ ".json")%string)).
Proof.
  do 4 (split; [reflexivity|]).
  exact (subset_name_plain same_path same_path "/scratch/run/temp_data"
           (loaded_world "config.yml"
              (control_with catalog_data_sources None (Some [("base", true)])
                            (Some scenario_section) None))
           _ catalog_data_sources "/data/catalogs/cesm.v2.json"
           [("case", PyStr "b.e23.control")]
           eq_refl eq_refl eq_refl eq_refl).
Defined.

(** ** Missing paths *)

(** When the control structure lacks [data_sources], or [data_sources]
    lacks one of [run_dir], [sname], [nb_path_root], the run raises
    [KeyError] for the first of them that is missing, in that order, once
    the control structure is loaded and [setup_book] was called: the
    catalog is not opened and no graph is created. *)
Theorem missing_key_aborts :
  forall get_control_dict realpath expanduser config_path fl c key,
    time_series fl = false ->
    get_control_dict config_path = inr c ->
    first_missing_key c = Some key ->
    run get_control_dict realpath expanduser config_path fl initial_world
    = (loaded_world config_path c, inl (KeyError key)).
Proof.
  intros get_control_dict realpath expanduser config_path fl c key
         Hts Hload Hkey.
  unfold run. rewrite Hts.
  erewrite bind_returns by reflexivity.
  unfold run_diagnostics.
  erewrite bind_returns by (apply load_control_returns; exact Hload).
  erewrite bind_returns by (unfold external, modify; reflexivity).
  fold (loaded_world config_path c).
  unfold first_missing_key in Hkey.
  destruct (ctl_data_sources c) as [ds|] eqn:Hds.
  - erewrite bind_returns
      by (eapply control_data_sources_returns; [reflexivity|exact Hds]).
    destruct (run_dir ds) as [rd|];
      [|inversion Hkey; reflexivity].
    erewrite bind_returns by reflexivity.
    erewrite bind_returns
      by (eapply control_data_sources_returns; [reflexivity|exact Hds]).
    destruct (sname ds) as [sn|];
      [|inversion Hkey; reflexivity].
    erewrite bind_returns by reflexivity.
    erewrite bind_returns
      by (eapply control_data_sources_returns; [reflexivity|exact Hds]).
    destruct (nb_path_root ds) as [nbr|]; [discriminate Hkey|].
    inversion Hkey. reflexivity.
  - inversion Hkey.
    apply bind_raises. unfold control_data_sources.
    erewrite bind_returns by (apply read_control_returns; reflexivity).
    now rewrite Hds.
Qed.

Lemma missing_key_aborts_witness :
  time_series no_flags = false /\
  no_data_sources_loader "config.yml"
  = inr {| ctl_data_sources := None; global_params := None;
           env_check := None; compute_notebooks := None;
           compute_scripts := None |} /\
  first_missing_key
    {| ctl_data_sources := None; global_params := None;
       env_check := None; compute_notebooks := None;
       compute_scripts := None |} = Some "data_sources" /\
  run no_data_sources_loader same_path same_path "config.yml" no_flags
      initial_world
  = (loaded_world "config.yml"
       {| ctl_data_sources := None; global_params := None;
          env_check := None; compute_notebooks := None;
          compute_scripts := None |},
     inl (KeyError "data_sources")).
Proof.
  do 3 (split; [reflexivity|]).
  exact (missing_key_aborts no_data_sources_loader same_path same_path
           "config.yml" no_flags _ "data_sources" eq_refl eq_refl eq_refl).
Defined.
